(** * Inventory backend (src/backend/server.js): model and properties

    The Express application of [server.js] is embedded route by route.
    Text is modelled as [string] holding the UTF-8 bytes of the JavaScript
    string.  A handler is a computation in a small state-and-exception
    monad over a [world] that holds the relational store, the faults the
    store is going to raise, the connections that are open and the trace of
    what the handler did with the store. *)

From stdpp Require Import base list gmap strings sorting.
From Stdlib Require Import ZArith QArith Ascii DecimalString DecimalN Lia.
From Stdlib Require String.

Set Warnings "-register-all".

Local Open Scope Z_scope.

(* stdpp keeps [simpl] from unfolding the concatenation of strings; the
   functions below are defined by recursion through it. *)
#[local] Arguments String.append !s1 s2 : simpl nomatch.

(** ** JavaScript values *)

(** A Number: the two infinities, NaN, and the finite values with their
    exact mathematical value.  Both zeros are [Finite 0]: nothing in
    [server.js] tells them apart. *)
Inductive number : Type :=
| NaN
| Infinity (negative : bool)
| Finite (q : Q).

(** What [bodyParser.json()] can put under a key of [req.body], together
    with [undefined] for a key that is not there. *)
Inductive jsval : Type :=
| JUndefined
| JNull
| JBool (b : bool)
| JNum (x : number)
| JStr (s : string)
| JArr (elements : list jsval)
| JObj (members : list (string * jsval)).

(** What [mysql2] hands back in a column of a row: [null], a number or a
    string. *)
Inductive cell : Type :=
| CNull
| CNum (x : number)
| CStr (s : string).

Definition is_empty (s : string) : bool :=
  match s with
  | EmptyString => true
  | String _ _ => false
  end.

(** ToBoolean on a Number: [NaN] and the zeros are falsy. *)
Definition number_truthy (x : number) : bool :=
  match x with
  | NaN => false
  | Infinity _ => true
  | Finite q => negb (Z.eqb (Qnum q) 0)
  end.

(** ToBoolean. *)
Definition truthy (v : jsval) : bool :=
  match v with
  | JUndefined | JNull => false
  | JBool b => b
  | JNum x => number_truthy x
  | JStr s => negb (is_empty s)
  | JArr _ | JObj _ => true
  end.

Definition cell_truthy (c : cell) : bool :=
  match c with
  | CNull => false
  | CNum x => number_truthy x
  | CStr s => negb (is_empty s)
  end.

(** [v == null]. *)
Definition loosely_null (v : jsval) : bool :=
  match v with
  | JUndefined | JNull => true
  | _ => false
  end.

(** [a || b]. *)
Definition js_or (a b : jsval) : jsval := if truthy a then a else b.
Definition cell_or (a b : cell) : cell := if cell_truthy a then a else b.
Definition number_or (a b : number) : number := if number_truthy a then a else b.

(** ** Decimal digits *)

Definition decimal (n : Z) : string := NilZero.string_of_uint (N.to_uint (Z.to_N n)).

Definition is_digit (c : ascii) : bool :=
  let n := N_of_ascii c in ((48 <=? n) && (n <=? 57))%N.

Fixpoint all_digits (s : string) : bool :=
  match s with
  | EmptyString => true
  | String c r => is_digit c && all_digits r
  end.

Fixpoint zeros (n : nat) : string :=
  match n with
  | O => EmptyString
  | S m => String "0" (zeros m)
  end.

(** [s.slice(0, n)] and [s.slice(n)]. *)
Fixpoint take_chars (n : nat) (s : string) : string :=
  match n, s with
  | S m, String c r => String c (take_chars m r)
  | _, _ => EmptyString
  end.

Fixpoint drop_chars (n : nat) (s : string) : string :=
  match n, s with
  | S m, String _ r => drop_chars m r
  | _, _ => s
  end.

(** The text has the shape of a fixed-point numeral with exactly two
    decimal places: an optional minus sign, one or more digits, a point,
    two digits, and nothing else. *)
Fixpoint digits_point_two (seen_digit : bool) (s : string) : bool :=
  match s with
  | EmptyString => false
  | String c r =>
      if is_digit c then digits_point_two true r
      else if Ascii.eqb c "." then
        seen_digit &&
        match r with
        | String d1 (String d2 EmptyString) => is_digit d1 && is_digit d2
        | _ => false
        end
      else false
  end.

Definition two_decimal_places (s : string) : bool :=
  match s with
  | String "-" r => digits_point_two false r
  | _ => digits_point_two false s
  end.

(** ** CSV text *)

Module Csv.

Definition comma : ascii := ",".
Definition dquote : ascii := ascii_of_N 34.
Definition LF : ascii := ascii_of_N 10.
Definition CR : ascii := ascii_of_N 13.

(** The delimiter, the quote character and the two newline characters. *)
Definition is_special (c : ascii) : bool :=
  Ascii.eqb c comma || Ascii.eqb c dquote || Ascii.eqb c LF || Ascii.eqb c CR.

Fixpoint needs_quoting (f : string) : bool :=
  match f with
  | EmptyString => false
  | String c r => is_special c || needs_quoting r
  end.

(** Embedded quotes doubled. *)
Fixpoint double_quotes (f : string) : string :=
  match f with
  | EmptyString => EmptyString
  | String c r =>
      if Ascii.eqb c dquote then String dquote (String dquote (double_quotes r))
      else String c (double_quotes r)
  end.

Definition field (f : string) : string :=
  if needs_quoting f
  then String dquote (double_quotes f +:+ String dquote EmptyString)
  else f.

(** One row: its fields separated by the delimiter, then a newline. *)
Fixpoint line (cells : list string) : string :=
  match cells with
  | [] => String LF EmptyString
  | [f] => field f +:+ String LF EmptyString
  | f :: rest => field f +:+ String comma (line rest)
  end.

Fixpoint lines (rows : list (list string)) : string :=
  match rows with
  | [] => EmptyString
  | r :: rest => line r +:+ lines rest
  end.

(** Modelled from the spec: the [Parser] of the json2csv package, which
    [server.js] calls and which is not part of the repository's source.
    Section 4.2: a header row with the column names, followed by one row
    per item using standard CSV quoting and escaping rules (fields
    containing the delimiter, quote character, or newline must be
    quoted; embedded quotes doubled); section 8: with no item the
    document is the header followed by a newline. *)
Definition document (header : list string) (rows : list (list string)) : string :=
  line header +:+ lines rows.

(** *** A reader of CSV text (RFC 4180)

    Records end at LF or CR LF; a field is either bare or enclosed in
    quotes, where two quotes stand for one.  The reader is a state
    machine over the characters; [cur] is the field being read,
    [fields] the fields of the record being read, [recs] the records
    already complete. *)
Inductive state : Type :=
| FieldStart   (* nothing of the next field read yet *)
| Bare         (* inside a field that is not quoted *)
| Quoted       (* inside a quoted field *)
| QuoteSeen.   (* inside a quoted field, just after a quote *)

Definition snoc (s : string) (c : ascii) : string := s +:+ String c EmptyString.

Fixpoint read (st : state) (cur : string) (fields : list string)
    (recs : list (list string)) (s : string) : option (list (list string)) :=
  match s with
  | EmptyString =>
      match st with
      | FieldStart =>
          match fields with
          | [] => Some recs
          | _ => Some (recs ++ [fields ++ [EmptyString]])%list
          end
      | Bare | QuoteSeen => Some (recs ++ [fields ++ [cur]])%list
      | Quoted => None
      end
  | String c r =>
      match st with
      | Quoted =>
          if Ascii.eqb c dquote then read QuoteSeen cur fields recs r
          else read Quoted (snoc cur c) fields recs r
      | QuoteSeen =>
          if Ascii.eqb c dquote then read Quoted (snoc cur dquote) fields recs r
          else if Ascii.eqb c comma then read FieldStart EmptyString (fields ++ [cur])%list recs r
          else if Ascii.eqb c LF then read FieldStart EmptyString [] (recs ++ [fields ++ [cur]])%list r
          else if Ascii.eqb c CR then
            match r with
            | String c' r' =>
                if Ascii.eqb c' LF
                then read FieldStart EmptyString [] (recs ++ [fields ++ [cur]])%list r'
                else None
            | EmptyString => None
            end
          else None
      | FieldStart | Bare =>
          if Ascii.eqb c dquote then
            match st with
            | FieldStart => read Quoted EmptyString fields recs r
            | _ => None
            end
          else if Ascii.eqb c comma then read FieldStart EmptyString (fields ++ [cur])%list recs r
          else if Ascii.eqb c LF then read FieldStart EmptyString [] (recs ++ [fields ++ [cur]])%list r
          else if Ascii.eqb c CR then
            match r with
            | String c' r' =>
                if Ascii.eqb c' LF
                then read FieldStart EmptyString [] (recs ++ [fields ++ [cur]])%list r'
                else read Bare (snoc cur c) fields recs r
            | EmptyString => read Bare (snoc cur c) fields recs r
            end
          else read Bare (snoc cur c) fields recs r
      end
  end.

Definition parse (s : string) : option (list (list string)) :=
  read FieldStart EmptyString [] [] s.

End Csv.

(** ** Numbers as text (ECMAScript [Number::toString] and [toFixed]) *)

Fixpoint strip_trailing_zeros (s : string) : string :=
  match s with
  | EmptyString => EmptyString
  | String c r =>
      match strip_trailing_zeros r with
      | EmptyString => if Ascii.eqb c "0" then EmptyString else String c EmptyString
      | r' => String c r'
      end
  end.

Definition string_length (s : string) : Z := Z.of_nat (String.length s).

(** ** The platform

    What [server.js] relies on and does not contain: the text of a Number
    where it depends on binary floating point, and the behaviour of the
    MySQL server behind [mysql2].
    - [shortest_digits q], for a finite [q > 0]: the digits [s] and the
      exponent [n] of [Number::toString], that is the fewest decimal
      digits that read back as the same Number, and the position of the
      decimal point;
    - [parse_float_text s]: [parseFloat] on a string;
    - [collate_leb a b]: [a] is not after [b] in the collation of the
      [name] column ([ORDER BY name]);
    - [id_matches p i]: the bound parameter [p] compares equal to the id
      [i] ([WHERE id = ?]);
    - [column_value v]: what a column holds after [v] was bound to it. *)
Class Platform : Type := {
  shortest_digits : Q -> string * Z;
  parse_float_text : string -> number;
  collate_leb : cell -> cell -> bool;
  id_matches : jsval -> Z -> bool;
  column_value : jsval -> cell
}.

Section Runtime.

Context {P : Platform}.

(** [Number::toString] for a finite [q > 0], steps 5 to 12. *)
Definition positive_to_string (q : Q) : string :=
  let '(digits, n) := shortest_digits q in
  let k := string_length digits in
  if (k <=? n) && (n <=? 21) then
    digits +:+ zeros (Z.to_nat (n - k))
  else if (0 <? n) && (n <=? 21) then
    take_chars (Z.to_nat n) digits +:+ String "." (drop_chars (Z.to_nat n) digits)
  else if (-6 <? n) && (n <=? 0) then
    String "0" (String "." (zeros (Z.to_nat (- n)) +:+ digits))
  else
    let e := n - 1 in
    let exponent := String "e" (String (if Z.ltb e 0 then "-"%char else "+"%char) (decimal (Z.abs e))) in
    match digits with
    | String d EmptyString => String d exponent
    | String d r => String d (String "." (r +:+ exponent))
    | EmptyString => exponent
    end.

Definition NumberToString (x : number) : string :=
  match x with
  | NaN => "NaN"
  | Infinity false => "Infinity"
  | Infinity true => "-Infinity"
  | Finite q =>
      if Z.eqb (Qnum q) 0 then "0"
      else if Qnum q <? 0 then String "-" (positive_to_string (Qopp q))
      else positive_to_string q
  end.

(** [x.toFixed(2)].  For a finite [x] below 10^21 in magnitude: the
    integer [n] for which [n / 100 - x] is as close to zero as possible,
    the larger one when there are two, written with at least three
    digits and a point before the last two. *)
Definition toFixed2 (x : number) : string :=
  match x with
  | Finite q =>
      let sign := if Qnum q <? 0 then String "-" EmptyString else EmptyString in
      let num := Z.abs (Qnum q) in
      let den := Z.pos (Qden q) in
      if 10 ^ 21 * den <=? num then
        sign +:+ NumberToString (Finite (num # Qden q))
      else
        let n := (200 * num + den) / (2 * den) in
        let m := if Z.eqb n 0 then "0" else decimal n in
        let m := if string_length m <=? 2
                 then zeros (Z.to_nat (3 - string_length m)) +:+ m else m in
        let k := string_length m in
        sign +:+ take_chars (Z.to_nat (k - 2)) m
             +:+ String "." (drop_chars (Z.to_nat (k - 2)) m)
  | _ => NumberToString x
  end.

(** [parseFloat(c)] on a column value: [null] reads as the text "null",
    which is not a number; a Number reads back as itself. *)
Definition parseFloat (c : cell) : number :=
  match c with
  | CNull => NaN
  | CNum x => x
  | CStr s => parse_float_text s
  end.

(** [c?.toString()]: [None] is [undefined]. *)
Definition optional_toString (c : cell) : option string :=
  match c with
  | CNull => None
  | CNum x => Some (NumberToString x)
  | CStr s => Some s
  end.

End Runtime.

(** ** The relational store *)

(** A row of the [inventory] table. *)
Record item : Type := Item {
  item_id : Z;
  item_name : cell;
  item_quantity : cell;
  item_price : cell;
  item_category : cell;
  item_supplier : cell
}.

Record database : Type := Database {
  table : list item;
  next_id : Z
}.

(** The first component of what [conn.query] resolves to: the rows of a
    SELECT, or the header of a write with its [affectedRows]. *)
Record query_result : Type := QueryResult {
  rows : list item;
  affectedRows : nat
}.

(** The five statements of [server.js]. *)
Definition sql_list : string := "SELECT * FROM inventory ORDER BY name".
Definition sql_get : string := "SELECT * FROM inventory WHERE id = ?".
Definition sql_insert : string :=
  "INSERT INTO inventory (name, quantity, price, category, supplier) VALUES (?, ?, ?, ?, ?)".
Definition sql_update : string :=
  "UPDATE inventory SET name = ?, quantity = ?, price = ?, category = ?, supplier = ? WHERE id = ?".
Definition sql_delete : string := "DELETE FROM inventory WHERE id = ?".

Section Store.

Context {P : Platform}.

Definition by_name (a b : item) : Prop :=
  collate_leb (item_name a) (item_name b) = true.

Global Instance by_name_dec : RelDecision by_name.
Proof. intros a b. unfold by_name. apply _. Defined.

Definition matching (p : jsval) (it : item) : bool := id_matches p (item_id it).

Definition overwrite (n q p c s : jsval) (it : item) : item :=
  {| item_id := item_id it;
     item_name := column_value n;
     item_quantity := column_value q;
     item_price := column_value p;
     item_category := column_value c;
     item_supplier := column_value s |}.

(** Modelled from the spec: the MySQL server that [mysql2] talks to.
    Section 4.1: list-all returns the items sorted by name ascending,
    get/update/delete address the row with the given id; section 3: the
    store assigns the id on creation and an update overwrites all the
    other fields.  [affectedRows] counts the rows the WHERE clause
    matched.  A statement the server does not know is an error. *)
Definition execute (sql : string) (params : list jsval) (d : database)
    : option (query_result * database) :=
  if String.eqb sql sql_list then
    Some (QueryResult (merge_sort by_name (table d)) 0, d)
  else if String.eqb sql sql_get then
    match params with
    | [p] => Some (QueryResult (List.filter (matching p) (table d)) 0, d)
    | _ => None
    end
  else if String.eqb sql sql_insert then
    match params with
    | [n; q; p; c; s] =>
        let new := overwrite n q p c s (Item (next_id d) CNull CNull CNull CNull CNull) in
        Some (QueryResult [] 1, Database (table d ++ [new]) (next_id d + 1))
    | _ => None
    end
  else if String.eqb sql sql_update then
    match params with
    | [n; q; p; c; s; i] =>
        Some (QueryResult [] (length (List.filter (matching i) (table d))),
              Database
                (map (fun it => if matching i it then overwrite n q p c s it else it) (table d))
                (next_id d))
    | _ => None
    end
  else if String.eqb sql sql_delete then
    match params with
    | [i] =>
        Some (QueryResult [] (length (List.filter (matching i) (table d))),
              Database (List.filter (fun it => negb (matching i it)) (table d)) (next_id d))
    | _ => None
    end
  else None.

End Store.

(** ** Handlers as computations *)

(** The errors [mysql2] is going to raise during one request: when the
    connection is opened, when the statement is run, when the connection
    is closed.  The text is the internal detail of the error. *)
Record faults : Type := Faults {
  connect_fault : option string;
  query_fault : option string;
  end_fault : option string
}.

Definition no_faults : faults := Faults None None None.

(** What a handler did with the store. *)
Inductive event : Type :=
| Connected
| ConnectFailed
| Queried (sql : string) (params : list jsval)
| QueryFailed (sql : string) (params : list jsval)
| Ended
| EndFailed.

Record world : Type := World {
  store : database;
  plan : faults;
  open_connections : nat;
  trace : list event;
  console : list (string * string)
}.

Inductive outcome (A : Type) : Type :=
| Returned (a : A)
| Thrown (err : string).
Arguments Returned {A} a.
Arguments Thrown {A} err.

Definition action (A : Type) : Type := world -> outcome A * world.

Global Instance action_ret : MRet action := fun A a w => (Returned a, w).

Global Instance action_bind : MBind action := fun A B f m w =>
  match m w with
  | (Returned a, w') => f a w'
  | (Thrown e, w') => (Thrown e, w')
  end.

(** [try { body } catch (err) { handler }]. *)
Definition try_catch {A : Type} (body : action A) (handler : string -> action A) : action A :=
  fun w =>
    match body w with
    | (Returned a, w') => (Returned a, w')
    | (Thrown e, w') => handler e w'
    end.

Definition log_event (e : event) (w : world) : world :=
  World (store w) (plan w) (open_connections w) (trace w ++ [e]) (console w).

(** [console.error(label, err)]. *)
Definition console_error (label err : string) : action unit :=
  fun w => (Returned tt,
            World (store w) (plan w) (open_connections w) (trace w) (console w ++ [(label, err)])).

(** [await getConnection()]. *)
Definition getConnection : action unit :=
  fun w =>
    match connect_fault (plan w) with
    | Some e => (Thrown e, log_event ConnectFailed w)
    | None =>
        (Returned tt,
         log_event Connected
           (World (store w) (plan w) (S (open_connections w)) (trace w) (console w)))
    end.

(** [await conn.end()]. *)
Definition conn_end : action unit :=
  fun w =>
    match end_fault (plan w) with
    | Some e => (Thrown e, log_event EndFailed w)
    | None =>
        (Returned tt,
         log_event Ended
           (World (store w) (plan w) (Nat.pred (open_connections w)) (trace w) (console w)))
    end.

Section Query.

Context {P : Platform}.

(** [await conn.query(sql, params)]. *)
Definition conn_query (sql : string) (params : list jsval) : action query_result :=
  fun w =>
    match query_fault (plan w) with
    | Some e => (Thrown e, log_event (QueryFailed sql params) w)
    | None =>
        match execute sql params (store w) with
        | Some (r, d) =>
            (Returned r,
             log_event (Queried sql params)
               (World d (plan w) (open_connections w) (trace w) (console w)))
        | None => (Thrown "ER_PARSE_ERROR", log_event (QueryFailed sql params) w)
        end
    end.

End Query.

(** ** Responses *)

Inductive pdf_op : Type :=
| NewDocument (margin : Z) (size : string)
| FontSize (n : Z)
| TextCentered (t : string)
| MoveDown
| TextAt (t : cell) (x y : Z)
| EndDocument.

Inductive header : Type :=
| SetHeader (key value : string)
| Attachment (filename : string).

Inductive payload : Type :=
| JsonBody (v : jsval)
| TextBody (s : string)
| PdfBody (ops : list pdf_op).

Record response : Type := Response {
  status : Z;
  headers : list header;
  body : payload
}.

(** [res.status(code).json(v)], [res.json(v)] with [code = 200]. *)
Definition res_json (code : Z) (v : jsval) : response := Response code [] (JsonBody v).

(** [res.status(code).send(text)]. *)
Definition res_send (code : Z) (text : string) : response := Response code [] (TextBody text).

Definition error_body (message : string) : jsval := JObj [("error", JStr message)].
Definition message_body (message : string) : jsval := JObj [("message", JStr message)].

Definition not_found : response := res_json 404 (error_body "Item not found").
Definition bad_request : response := res_json 400 (error_body "Name and quantity are required").
Definition database_error : response := res_json 500 (error_body "Database error").

Definition cell_json (c : cell) : jsval :=
  match c with
  | CNull => JNull
  | CNum x => JNum x
  | CStr s => JStr s
  end.

Definition item_json (it : item) : jsval :=
  JObj [("id", JNum (Finite (inject_Z (item_id it))));
        ("name", cell_json (item_name it));
        ("quantity", cell_json (item_quantity it));
        ("price", cell_json (item_price it));
        ("category", cell_json (item_category it));
        ("supplier", cell_json (item_supplier it))].

Definition rows_json (l : list item) : jsval := JArr (map item_json l).

(** [item[key]]. *)
Definition item_field (it : item) (key : string) : cell :=
  if String.eqb key "id" then CNum (Finite (inject_Z (item_id it)))
  else if String.eqb key "name" then item_name it
  else if String.eqb key "quantity" then item_quantity it
  else if String.eqb key "price" then item_price it
  else if String.eqb key "category" then item_category it
  else if String.eqb key "supplier" then item_supplier it
  else CNull.

(** The characters between the quotes of the literal in line 192 of
    [server.js], as the bytes of the file. *)
Definition currency_glyph : string :=
  String (ascii_of_N 195) (String (ascii_of_N 162)
    (String (ascii_of_N 226) (String (ascii_of_N 128) (String (ascii_of_N 154)
      (String (ascii_of_N 194) (String (ascii_of_N 185) EmptyString)))))).

Definition tableTop : Z := 100.
Definition itemX : Z := 50.
Definition qtyX : Z := 200.
Definition priceX : Z := 260.
Definition categoryX : Z := 330.
Definition supplierX : Z := 420.

(** The body of a request: the object that [bodyParser.json()] built. *)
Definition field_of (b : gmap string jsval) (key : string) : jsval :=
  default JUndefined (b !! key).

Inductive request : Type :=
| GET_inventory
| GET_inventory_id (id : string)
| POST_inventory (b : gmap string jsval)
| PUT_inventory_id (id : string) (b : gmap string jsval)
| DELETE_inventory_id (id : string)
| GET_export_csv
| GET_export_pdf.

Section Server.

Context {P : Platform}.

(** [item.quantity?.toString() || '0']. *)
Definition quantity_text (it : item) : string :=
  match optional_toString (item_quantity it) with
  | Some s => if is_empty s then "0" else s
  | None => "0"
  end.

(** The glyph followed by [(parseFloat(item.price) || 0).toFixed(2)]. *)
Definition price_amount (it : item) : number :=
  number_or (parseFloat (item_price it)) (Finite 0).

Definition price_text (it : item) : string :=
  currency_glyph +:+ toFixed2 (price_amount it).

(** The body of the [forEach] of the PDF route. *)
Definition pdf_row (it : item) (y : Z) : list pdf_op :=
  [TextAt (item_name it) itemX y;
   TextAt (CStr (quantity_text it)) qtyX y;
   TextAt (CStr (price_text it)) priceX y;
   TextAt (cell_or (item_category it) (CStr "-")) categoryX y;
   TextAt (cell_or (item_supplier it) (CStr "-")) supplierX y].

Fixpoint pdf_rows (l : list item) (y : Z) : list pdf_op :=
  match l with
  | [] => []
  | it :: rest => pdf_row it y ++ pdf_rows rest (y + 20)
  end.

Definition pdf_report (l : list item) : list pdf_op :=
  [NewDocument 30 "A4";
   FontSize 18; TextCentered "Inventory Report"; MoveDown;
   FontSize 12; TextAt (CStr "Name") itemX tableTop;
   TextAt (CStr "Qty") qtyX tableTop;
   TextAt (CStr "Price") priceX tableTop;
   TextAt (CStr "Category") categoryX tableTop;
   TextAt (CStr "Supplier") supplierX tableTop]
  ++ pdf_rows l (tableTop + 20) ++ [EndDocument].

(** The text json2csv writes for a value: nothing for [null], the
    decimal text of a number, the characters of a string. *)
Definition cell_text (c : cell) : string :=
  match c with
  | CNull => EmptyString
  | CNum x => NumberToString x
  | CStr s => s
  end.

(** The [fields] of the CSV route. *)
Definition csv_fields : list string :=
  ["id"; "name"; "quantity"; "price"; "category"; "supplier"].

Definition csv_record (fields : list string) (it : item) : list string :=
  map (fun key => cell_text (item_field it key)) fields.

(** Modelled from the spec: [new Parser({ fields }).parse(rows)] of the
    json2csv package, which is not part of the repository's source.
    Section 4.2: a header row with the fixed column order, followed by
    one row per item using standard CSV quoting and escaping rules. *)
Definition json2csv_parse (fields : list string) (l : list item) : string :=
  Csv.document fields (map (csv_record fields) l).

(** [app.get('/inventory', ...)]. *)
Definition get_inventory : action response :=
  try_catch
    (getConnection ;;
     r ← conn_query sql_list [];
     conn_end ;;
     mret (res_json 200 (rows_json (rows r))))
    (fun err =>
       console_error "GET /inventory error:" err ;;
       mret database_error).

(** [app.get('/inventory/:id', ...)]. *)
Definition get_inventory_id (id : string) : action response :=
  try_catch
    (getConnection ;;
     r ← conn_query sql_get [JStr id];
     conn_end ;;
     match rows r with
     | [] => mret not_found
     | first :: _ => mret (res_json 200 (item_json first))
     end)
    (fun err =>
       console_error "GET /inventory/:id error:" err ;;
       mret database_error).

(** [if (!name || quantity == null)]. *)
Definition rejected (b : gmap string jsval) : bool :=
  negb (truthy (field_of b "name")) || loosely_null (field_of b "quantity").

(** [[name, quantity, price || 0, category || '', supplier || '']]. *)
Definition bound_values (b : gmap string jsval) : list jsval :=
  [field_of b "name";
   field_of b "quantity";
   js_or (field_of b "price") (JNum (Finite 0));
   js_or (field_of b "category") (JStr EmptyString);
   js_or (field_of b "supplier") (JStr EmptyString)].

(** [app.post('/inventory', ...)]. *)
Definition post_inventory (b : gmap string jsval) : action response :=
  try_catch
    (if rejected b then mret bad_request
     else
       getConnection ;;
       conn_query sql_insert (bound_values b) ;;
       conn_end ;;
       mret (res_json 200 (message_body "Item added")))
    (fun err =>
       console_error "POST /inventory error:" err ;;
       mret database_error).

(** [app.put('/inventory/:id', ...)]. *)
Definition put_inventory_id (id : string) (b : gmap string jsval) : action response :=
  try_catch
    (if rejected b then mret bad_request
     else
       getConnection ;;
       result ← conn_query sql_update (bound_values b ++ [JStr id]);
       conn_end ;;
       if Nat.eqb (affectedRows result) 0 then mret not_found
       else mret (res_json 200 (message_body "Item updated")))
    (fun err =>
       console_error "PUT /inventory/:id error:" err ;;
       mret database_error).

(** [app.delete('/inventory/:id', ...)]. *)
Definition delete_inventory_id (id : string) : action response :=
  try_catch
    (getConnection ;;
     result ← conn_query sql_delete [JStr id];
     conn_end ;;
     if Nat.eqb (affectedRows result) 0 then mret not_found
     else mret (res_json 200 (message_body "Item deleted")))
    (fun err =>
       console_error "DELETE /inventory/:id error:" err ;;
       mret database_error).

(** [app.get('/export/csv', ...)]. *)
Definition get_export_csv : action response :=
  try_catch
    (getConnection ;;
     r ← conn_query sql_list [];
     conn_end ;;
     let fields := ["id"; "name"; "quantity"; "price"; "category"; "supplier"] in
   let csv := json2csv_parse fields (rows r) in
     mret (Response 200
             [SetHeader "Content-Type" "text/csv"; Attachment "inventory.csv"]
             (TextBody csv)))
    (fun err =>
       console_error "GET /export/csv error:" err ;;
       mret (res_send 500 "Failed to export CSV")).

(** [app.get('/export/pdf', ...)]. *)
Definition get_export_pdf : action response :=
  try_catch
    (getConnection ;;
     r ← conn_query sql_list [];
     conn_end ;;
     let filename := "inventory.pdf" in
     mret (Response 200
             [SetHeader "Content-disposition"
                ("attachment; filename=" +:+ String Csv.dquote (filename +:+ String Csv.dquote EmptyString));
              SetHeader "Content-type" "application/pdf"]
             (PdfBody (pdf_report (rows r)))))
    (fun err =>
       console_error "GET /export/pdf error:" err ;;
       mret (res_send 500 "Failed to export PDF")).

(** The routes of the application. *)
Definition app (r : request) : action response :=
  match r with
  | GET_inventory => get_inventory
  | GET_inventory_id id => get_inventory_id id
  | POST_inventory b => post_inventory b
  | PUT_inventory_id id b => put_inventory_id id b
  | DELETE_inventory_id id => delete_inventory_id id
  | GET_export_csv => get_export_csv
  | GET_export_pdf => get_export_pdf
  end.

(** One request served against the store [d] with the faults [f]. *)
Definition serve (r : request) (d : database) (f : faults) : outcome response * world :=
  app r (World d f 0 [] []).

Definition reply (r : request) (d : database) (f : faults) : outcome response :=
  fst (serve r d f).

Definition after (r : request) (d : database) (f : faults) : world :=
  snd (serve r d f).

End Server.

(** ** Vocabulary of the properties *)

(** A statement was sent to the store, whether it succeeded or not. *)
Definition is_statement (e : event) : bool :=
  match e with
  | Queried _ _ | QueryFailed _ _ => true
  | _ => false
  end.

Definition statements (tr : list event) : nat :=
  List.length (List.filter is_statement tr).

(** The store failed: the connection could not be opened or closed, or
    the statement raised an error. *)
Definition is_store_failure (e : event) : bool :=
  match e with
  | ConnectFailed | QueryFailed _ _ | EndFailed => true
  | _ => false
  end.

Definition store_failed (tr : list event) : bool := existsb is_store_failure tr.

(** The answer of a route to a failure of the store. *)
Definition failure_response (r : request) : response :=
  match r with
  | GET_export_csv => res_send 500 "Failed to export CSV"
  | GET_export_pdf => res_send 500 "Failed to export PDF"
  | _ => database_error
  end.

(** The handler went to the store: the first thing it did was to open a
    connection. *)
Definition proceeds_to_store (tr : list event) : bool :=
  match tr with
  | Connected :: _ | ConnectFailed :: _ => true
  | _ => false
  end.

(** The handler went to the store with this statement: it asked for a
    connection and, when it got one, sent the statement. *)
Definition attempts (sql : string) (ps : list jsval) (tr : list event) : Prop :=
  tr = [ConnectFailed] \/
  exists rest, tr = Connected :: Queried sql ps :: rest \/
               tr = Connected :: QueryFailed sql ps :: rest.

(** The words of section 4.1 of the specification: the operation opens a
    connection, executes exactly one statement, and has released the
    connection when it is over. *)
Definition scoped_access (w : world) : Prop :=
  List.In Connected (trace w) /\ statements (trace w) = 1%nat /\ open_connections w = 0%nat.

Section Vocabulary.

Context {P : Platform}.

(** The request gets as far as the store. *)
Definition reaches_store (r : request) : bool :=
  match r with
  | POST_inventory b | PUT_inventory_id _ b => negb (rejected b)
  | _ => true
  end.

(** Some row of the table has the id of the route parameter. *)
Definition has_match (id : string) (d : database) : bool :=
  existsb (matching (JStr id)) (table d).

(** The row that a write with the body [b] leaves in the place of [it]. *)
Definition written (b : gmap string jsval) (it : item) : item :=
  overwrite (field_of b "name") (field_of b "quantity")
    (js_or (field_of b "price") (JNum (Finite 0)))
    (js_or (field_of b "category") (JStr EmptyString))
    (js_or (field_of b "supplier") (JStr EmptyString)) it.

(** The amount of the price column in the PDF has two decimal places. *)
Definition two_place_price (it : item) : bool :=
  two_decimal_places (toFixed2 (price_amount it)).

(** What a handler of the shape
    [try { connect; query; end; respond } catch { log; fail }]
    comes to, by the faults of the request. *)
Definition store_access (sql : string) (ps : list jsval) (k : query_result -> response)
    (label : string) (fail : response) (d : database) (f : faults)
    : outcome response * world :=
  match connect_fault f with
  | Some e => (Returned fail, World d f 0 [ConnectFailed] [(label, e)])
  | None =>
      match query_fault f with
      | Some e => (Returned fail, World d f 1 [Connected; QueryFailed sql ps] [(label, e)])
      | None =>
          match execute sql ps d with
          | None =>
              (Returned fail,
               World d f 1 [Connected; QueryFailed sql ps] [(label, "ER_PARSE_ERROR")])
          | Some (r, d') =>
              match end_fault f with
              | Some e =>
                  (Returned fail,
                   World d' f 1 [Connected; Queried sql ps; EndFailed] [(label, e)])
              | None => (Returned (k r), World d' f 0 [Connected; Queried sql ps; Ended] [])
              end
          end
      end
  end.

End Vocabulary.

(** ** A reference platform

    A platform to run the model on.  It writes a Number that is an
    integer of at most fifteen significant digits, or a power of ten up to
    10^22, with the digits JavaScript writes, and reads a string of at
    most fifteen digits as JavaScript reads it; it collates names as
    binary strings, matches an id with its decimal text, and lets a column
    keep the number, string or boolean bound to it.  Outside these inputs
    it is a stand-in. *)

Definition exact_digits (q : Q) : string * Z :=
  let d := decimal (Qnum q / Z.pos (Qden q)) in
  (strip_trailing_zeros d, string_length d).

Definition digits_as_number (s : string) : number :=
  match NilZero.uint_of_string s with
  | Some u => Finite (inject_Z (Z.of_uint u))
  | None => NaN
  end.

Definition binary_collation (a b : cell) : bool :=
  let key c := match c with CStr s => s | _ => EmptyString end in
  String.leb (key a) (key b).

Definition decimal_id (p : jsval) (i : Z) : bool :=
  match p with
  | JStr s => String.eqb s (decimal i)
  | _ => false
  end.

Definition kept_value (v : jsval) : cell :=
  match v with
  | JNum x => CNum x
  | JStr s => CStr s
  | JBool b => CNum (Finite (if b then 1 else 0))
  | _ => CNull
  end.

Definition reference_platform : Platform :=
  {| shortest_digits := exact_digits;
     parse_float_text := digits_as_number;
     collate_leb := binary_collation;
     id_matches := decimal_id;
     column_value := kept_value |}.

(** Data to run the model on. *)

Definition sample_store : database :=
  Database
    [Item 1 (CStr "Widget") (CNum (Finite 5)) (CNum (Finite 12)) (CStr "tools") CNull;
     Item 2 (CStr "Anvil") CNull CNull CNull (CStr "acme")]
    3.

(** [{name: "Nut", quantity: 0, price: false}]. *)
Definition sample_body : gmap string jsval :=
  <["name" := JStr "Nut"]> (<["quantity" := JNum (Finite 0)]> (<["price" := JBool false]> ∅)).

(** [{quantity: 5}]. *)
Definition nameless_body : gmap string jsval := <["quantity" := JNum (Finite 5)]> ∅.

(** A body with the empty string as name and the quantity 5. *)
Definition empty_name_body : gmap string jsval :=
  <["name" := JStr EmptyString]> (<["quantity" := JNum (Finite 5)]> ∅).

(** The statement is refused by the server. *)
Definition statement_failure : faults := Faults None (Some "ER_NO_SUCH_TABLE") None.

(** The server cannot be reached. *)
Definition connection_failure : faults := Faults (Some "ECONNREFUSED") None None.

(** A row with nothing but a name, and a row whose price is the Number
    10^21. *)
Definition bare_item : item := Item 4 (CStr "Bolt") CNull CNull CNull CNull.

Definition huge_price : item :=
  Item 3 (CStr "Anvil") (CNum (Finite 1)) (CNum (Finite (inject_Z (10 ^ 21)))) CNull CNull.

(** ** The routes one by one *)

(** The statement of a route: the literal of its [conn.query]. *)
Definition route_sql (r : request) : string :=
  match r with
  | GET_inventory | GET_export_csv | GET_export_pdf => sql_list
  | GET_inventory_id _ => sql_get
  | POST_inventory _ => sql_insert
  | PUT_inventory_id _ _ => sql_update
  | DELETE_inventory_id _ => sql_delete
  end.

(** The values bound to the placeholders of that statement. *)
Definition route_params (r : request) : list jsval :=
  match r with
  | GET_inventory | GET_export_csv | GET_export_pdf => []
  | GET_inventory_id id | DELETE_inventory_id id => [JStr id]
  | POST_inventory b => bound_values b
  | PUT_inventory_id id b => bound_values b ++ [JStr id]
  end.

(** The label of the [console.error] of a route. *)
Definition route_label (r : request) : string :=
  match r with
  | GET_inventory => "GET /inventory error:"
  | GET_inventory_id _ => "GET /inventory/:id error:"
  | POST_inventory _ => "POST /inventory error:"
  | PUT_inventory_id _ _ => "PUT /inventory/:id error:"
  | DELETE_inventory_id _ => "DELETE /inventory/:id error:"
  | GET_export_csv => "GET /export/csv error:"
  | GET_export_pdf => "GET /export/pdf error:"
  end.

(** The route only reads. *)
Definition is_read (r : request) : bool :=
  match r with
  | POST_inventory _ | PUT_inventory_id _ _ | DELETE_inventory_id _ => false
  | _ => true
  end.

(** The first error the store raises during a request that gets to it. *)
Definition first_fault (f : faults) : option string :=
  match connect_fault f with
  | Some e => Some e
  | None =>
      match query_fault f with
      | Some e => Some e
      | None => end_fault f
      end
  end.

Section Answers.

Context {P : Platform}.

(** What a route answers once its statement has run and the connection
    is closed. *)
Definition route_answer (r : request) (q : query_result) : response :=
  match r with
  | GET_inventory => res_json 200 (rows_json (rows q))
  | GET_inventory_id _ =>
      match rows q with
      | [] => not_found
      | first :: _ => res_json 200 (item_json first)
      end
  | POST_inventory _ => res_json 200 (message_body "Item added")
  | PUT_inventory_id _ _ =>
      if Nat.eqb (affectedRows q) 0 then not_found
      else res_json 200 (message_body "Item updated")
  | DELETE_inventory_id _ =>
      if Nat.eqb (affectedRows q) 0 then not_found
      else res_json 200 (message_body "Item deleted")
  | GET_export_csv =>
      Response 200 [SetHeader "Content-Type" "text/csv"; Attachment "inventory.csv"]
        (TextBody (json2csv_parse csv_fields (rows q)))
  | GET_export_pdf =>
      Response 200
        [SetHeader "Content-disposition"
           ("attachment; filename=" +:+
            String Csv.dquote ("inventory.pdf" +:+ String Csv.dquote EmptyString));
         SetHeader "Content-type" "application/pdf"]
        (PdfBody (pdf_report (rows q)))
  end.

(** What the store does with the statement of a route. *)
Definition route_effect (r : request) (d : database) : query_result * database :=
  match r with
  | GET_inventory | GET_export_csv | GET_export_pdf =>
      (QueryResult (merge_sort by_name (table d)) 0, d)
  | GET_inventory_id id => (QueryResult (List.filter (matching (JStr id)) (table d)) 0, d)
  | POST_inventory b =>
      (QueryResult [] 1,
       Database (table d ++ [written b (Item (next_id d) CNull CNull CNull CNull CNull)])
                (next_id d + 1))
  | PUT_inventory_id id b =>
      (QueryResult [] (length (List.filter (matching (JStr id)) (table d))),
       Database (map (fun it => if matching (JStr id) it then written b it else it) (table d))
                (next_id d))
  | DELETE_inventory_id id =>
      (QueryResult [] (length (List.filter (matching (JStr id)) (table d))),
       Database (List.filter (fun it => negb (matching (JStr id) it)) (table d)) (next_id d))
  end.

End Answers.

(** The id in the path of a route that has one. *)
Definition route_id (r : request) : option string :=
  match r with
  | GET_inventory_id id | PUT_inventory_id id _ | DELETE_inventory_id id => Some id
  | _ => None
  end.

(** ** Reading an amount *)

(** The integer that the digits of a numeral denote, its decimal point
    left out: for a numeral with two decimal places, its number of
    hundredths. *)
Fixpoint digits_value (acc : Z) (s : string) : option Z :=
  match s with
  | EmptyString => Some acc
  | String c r =>
      if is_digit c then digits_value (10 * acc + (Z.of_N (N_of_ascii c) - 48)) r
      else if Ascii.eqb c "." then digits_value acc r
      else None
  end.

Definition hundredths (s : string) : option Z :=
  match s with
  | String "-" r => option_map Z.opp (digits_value 0 r)
  | _ => digits_value 0 s
  end.

(** The closing of the connection fails. *)
Definition closing_failure : faults := Faults None None (Some "ECONNRESET").

(** A body with the name [0] and the quantity 5. *)
Definition zero_name_body : gmap string jsval :=
  <["name" := JNum (Finite 0)]> (<["quantity" := JNum (Finite 5)]> ∅).

(** * Properties *)

(** ** Text *)

Lemma string_app_assoc (a b c : string) : (a +:+ b) +:+ c = a +:+ (b +:+ c).
Proof. induction a as [|x a IH]; simpl; [reflexivity | by rewrite IH]. Qed.

Lemma string_app_empty_r (a : string) : a +:+ EmptyString = a.
Proof. induction a as [|x a IH]; simpl; [reflexivity | by rewrite IH]. Qed.

Module CsvFacts.
Import Csv.

Lemma is_special_false c :
  is_special c = false →
  Ascii.eqb c dquote = false ∧ Ascii.eqb c comma = false ∧
  Ascii.eqb c LF = false ∧ Ascii.eqb c CR = false.
Proof.
  unfold is_special. intros H.
  repeat (apply orb_false_iff in H as [H ?]). auto.
Qed.

(** Characters that are not special are accumulated one by one. *)
Lemma read_bare_run f : ∀ st cur fs recs rest,
  needs_quoting f = false → st = FieldStart ∨ st = Bare →
  f ≠ EmptyString ∨ st = Bare →
  read st cur fs recs (f +:+ rest) = read Bare (cur +:+ f) fs recs rest.
Proof.
  induction f as [|c f IH]; intros st cur fs recs rest Hq Hst Hne.
  - destruct Hne as [?| ->]; [done|]. simpl. by rewrite string_app_empty_r.
  - simpl in Hq. apply orb_false_iff in Hq as [Hc Hf].
    destruct (is_special_false _ Hc) as (Hd & Hcm & Hl & Hr).
    assert (read st cur fs recs (String c f +:+ rest)
            = read Bare (snoc cur c) fs recs (f +:+ rest)) as ->.
    { destruct Hst as [-> | ->]; simpl; by rewrite Hd, Hcm, Hl, Hr. }
    rewrite IH by auto. unfold snoc. by rewrite string_app_assoc.
Qed.

(** Inside quotes every character is taken as it is, two quotes stand
    for one, and the closing quote leaves the field complete. *)
Lemma read_quoted_run f : ∀ cur fs recs rest,
  read Quoted cur fs recs (double_quotes f +:+ String dquote rest)
  = read QuoteSeen (cur +:+ f) fs recs rest.
Proof.
  induction f as [|c f IH]; intros cur fs recs rest.
  - simpl. by rewrite string_app_empty_r.
  - simpl. destruct (Ascii.eqb c dquote) eqn:Hc.
    + apply Ascii.eqb_eq in Hc as ->. simpl.
      rewrite IH. unfold snoc. by rewrite string_app_assoc.
    + simpl. rewrite Hc, IH. unfold snoc. by rewrite string_app_assoc.
Qed.

(** What the reader does at the end of a field. *)
Definition at_delimiter (d : ascii) (f : string) (fs : list string)
    (recs : list (list string)) (rest : string) : option (list (list string)) :=
  if Ascii.eqb d comma then read FieldStart EmptyString (fs ++ [f])%list recs rest
  else read FieldStart EmptyString [] (recs ++ [fs ++ [f]])%list rest.

Lemma read_field f d fs recs rest :
  d = comma ∨ d = LF →
  read FieldStart EmptyString fs recs (field f +:+ String d rest) = at_delimiter d f fs recs rest.
Proof.
  intros Hd. unfold field, at_delimiter. destruct (needs_quoting f) eqn:Hq.
  - simpl. rewrite string_app_assoc. simpl. rewrite read_quoted_run. simpl.
    destruct Hd as [-> | ->]; reflexivity.
  - destruct f as [|c f].
    + destruct Hd as [-> | ->]; reflexivity.
    + rewrite read_bare_run by (auto || (left; done)). simpl.
      destruct Hd as [-> | ->]; reflexivity.
Qed.

Lemma read_line cells : ∀ fs recs rest,
  cells ≠ [] →
  read FieldStart EmptyString fs recs (line cells +:+ rest)
  = read FieldStart EmptyString [] (recs ++ [fs ++ cells])%list rest.
Proof.
  induction cells as [|f cells IH]; intros fs recs rest Hne; [done|].
  destruct cells as [|g cells].
  - simpl. rewrite string_app_assoc. simpl.
    rewrite read_field by (right; done). reflexivity.
  - change (line (f :: g :: cells)) with (field f +:+ String comma (line (g :: cells))).
    rewrite string_app_assoc. simpl.
    rewrite read_field by (left; done). unfold at_delimiter. simpl.
    rewrite IH by done. by rewrite <- app_assoc.
Qed.

Lemma read_lines rows : ∀ recs,
  Forall (λ r, r ≠ []) rows →
  read FieldStart EmptyString [] recs (lines rows) = Some (recs ++ rows)%list.
Proof.
  induction rows as [|r rows IH]; intros recs Hne.
  - simpl. by rewrite app_nil_r.
  - inversion Hne; subst. simpl. rewrite read_line by done.
    rewrite IH by done. simpl. by rewrite <- app_assoc.
Qed.

Lemma parse_document header rows :
  header ≠ [] → Forall (λ r, r ≠ []) rows →
  parse (document header rows) = Some (header :: rows).
Proof.
  intros Hh Hr. unfold parse, document.
  rewrite read_line by done. simpl. by rewrite read_lines.
Qed.

End CsvFacts.

(** ** Digits *)

Lemma all_digits_app a b : all_digits (a +:+ b) = all_digits a && all_digits b.
Proof.
  induction a as [|c a IH]; simpl; [reflexivity|].
  by rewrite IH, andb_assoc.
Qed.

Lemma all_digits_zeros n : all_digits (zeros n) = true.
Proof. induction n; simpl; auto. Qed.

Lemma length_app a b : String.length (a +:+ b) = (String.length a + String.length b)%nat.
Proof. induction a as [|c a IH]; simpl; [reflexivity | by rewrite IH]. Qed.

Lemma length_zeros n : String.length (zeros n) = n.
Proof. induction n; simpl; auto. Qed.

Lemma all_digits_uint u : all_digits (NilEmpty.string_of_uint u) = true.
Proof. induction u; simpl; auto. Qed.

Lemma all_digits_decimal n : all_digits (decimal n) = true.
Proof.
  unfold decimal, NilZero.string_of_uint.
  destruct (N.to_uint (Z.to_N n)) eqn:E; try reflexivity; rewrite <- E at 1;
    rewrite E; apply all_digits_uint.
Qed.

Lemma decimal_length n : (1 <= String.length (decimal n))%nat.
Proof.
  unfold decimal, NilZero.string_of_uint.
  destruct (N.to_uint (Z.to_N n)); simpl; lia.
Qed.

Lemma all_digits_take n : forall s, all_digits s = true -> all_digits (take_chars n s) = true.
Proof.
  induction n as [|n IH]; intros [|c s] Hs; simpl; auto.
  simpl in Hs. apply andb_true_iff in Hs as [Hc Hs]. rewrite Hc. simpl. auto.
Qed.

Lemma take_nonempty n s :
  (1 <= n)%nat -> (1 <= String.length s)%nat -> exists c r, take_chars n s = String c r.
Proof. destruct n, s; simpl; try lia. eauto. Qed.

(** The last two characters of a run of digits. *)
Lemma drop_two_digits n : forall s,
  all_digits s = true -> String.length s = S (S n) ->
  exists d1 d2, drop_chars n s = String d1 (String d2 EmptyString)
                /\ is_digit d1 = true /\ is_digit d2 = true.
Proof.
  induction n as [|n IH]; intros s Hs Hl.
  - destruct s as [|d1 [|d2 [|? ?]]]; simpl in Hl; try lia.
    simpl in Hs. apply andb_true_iff in Hs as [H1 Hs].
    apply andb_true_iff in Hs as [H2 _]. simpl. eauto.
  - destruct s as [|c s]; simpl in Hl; [lia|].
    simpl in Hs. apply andb_true_iff in Hs as [_ Hs].
    simpl. apply IH; [done | lia].
Qed.

Lemma digits_point_two_accepts a : forall seen d1 d2,
  all_digits a = true -> (seen = true \/ a <> EmptyString) ->
  is_digit d1 = true -> is_digit d2 = true ->
  digits_point_two seen (a +:+ String "." (String d1 (String d2 EmptyString))) = true.
Proof.
  induction a as [|c a IH]; intros seen d1 d2 Ha Hs H1 H2.
  - destruct Hs as [-> | ?]; [|done]. simpl. by rewrite H1, H2.
  - simpl in Ha. apply andb_true_iff in Ha as [Hc Ha].
    simpl. rewrite Hc. apply IH; auto.
Qed.

Lemma two_decimal_places_accepts (negative : bool) a d1 d2 :
  all_digits a = true -> a <> EmptyString ->
  is_digit d1 = true -> is_digit d2 = true ->
  two_decimal_places
    ((if negative then String "-" EmptyString else EmptyString)
     +:+ a +:+ String "." (String d1 (String d2 EmptyString))) = true.
Proof.
  intros Ha Hne H1 H2. destruct negative; simpl.
  - apply digits_point_two_accepts; auto.
  - destruct a as [|c a]; [done|].
    simpl in Ha. apply andb_true_iff in Ha as [Hc Ha].
    assert (two_decimal_places (String c a +:+ String "." (String d1 (String d2 EmptyString)))
            = digits_point_two false (String c a +:+ String "." (String d1 (String d2 EmptyString)))) as ->.
    { simpl. destruct c as [[] [] [] [] [] [] [] []]; try reflexivity. discriminate. }
    apply digits_point_two_accepts; auto. simpl. by rewrite Hc.
Qed.

Section Fixed.
Context {P : Platform}.

Lemma toFixed2_two_places q :
  Z.abs (Qnum q) < 10 ^ 21 * Z.pos (Qden q) ->
  two_decimal_places (toFixed2 (Finite q)) = true.
Proof.
  intros Hq. unfold toFixed2.
  destruct (Z.leb_spec (10 ^ 21 * Z.pos (Qden q)) (Z.abs (Qnum q))) as [?|_]; [lia|].
  set (n := (200 * Z.abs (Qnum q) + Z.pos (Qden q)) / (2 * Z.pos (Qden q))).
  set (m0 := if Z.eqb n 0 then "0" else decimal n).
  assert (all_digits m0 = true /\ (1 <= String.length m0)%nat) as [Hd0 Hl0].
  { unfold m0. destruct (Z.eqb n 0); [split; [reflexivity | simpl; lia]|].
    split; [apply all_digits_decimal | apply decimal_length]. }
  set (m := if string_length m0 <=? 2
            then zeros (Z.to_nat (3 - string_length m0)) +:+ m0 else m0).
  assert (all_digits m = true /\ (3 <= String.length m)%nat) as [Hd Hl].
  { unfold m, string_length. destruct (Z.leb_spec (Z.of_nat (String.length m0)) 2).
    - rewrite all_digits_app, all_digits_zeros, length_app, length_zeros. split; [done | lia].
    - split; [done | lia]. }
  unfold string_length.
  destruct (drop_two_digits (Z.to_nat (Z.of_nat (String.length m) - 2)) m)
    as (d1 & d2 & -> & H1 & H2); [done | lia |].
  destruct (take_nonempty (Z.to_nat (Z.of_nat (String.length m) - 2)) m)
    as (c & r & Ht); [lia | lia |].
  apply two_decimal_places_accepts; auto.
  - by apply all_digits_take.
  - by rewrite Ht.
Qed.
End Fixed.

(** ** What the handlers come to *)

(** The eight ways the store can fail or not during one request. *)
Ltac by_faults f :=
  destruct (connect_fault f), (query_fault f), (end_fault f).

Section Runs.
Context {P : Platform}.

Lemma run_store_access sql ps (K : query_result -> action response) k label fail d f :
  (forall r w, K r w = (Returned (k r), w)) ->
  try_catch
    (getConnection ;; r ← conn_query sql ps; conn_end ;; K r)
    (fun err => console_error label err ;; mret fail)
    (World d f 0 [] [])
  = store_access sql ps k label fail d f.
Proof.
  intros HK.
  unfold store_access, try_catch, mbind, action_bind, getConnection, conn_query, conn_end,
    console_error, mret, action_ret, log_event; cbn.
  destruct (connect_fault f); cbn; [reflexivity|].
  destruct (query_fault f); cbn; [reflexivity|].
  destruct (execute sql ps d) as [[r d']|]; cbn; [|reflexivity].
  destruct (end_fault f); cbn; [reflexivity|].
  by rewrite HK.
Qed.

Lemma serve_get_inventory d f :
  serve GET_inventory d f =
  store_access sql_list [] (fun r => res_json 200 (rows_json (rows r)))
    "GET /inventory error:" database_error d f.
Proof. apply run_store_access. reflexivity. Qed.

Lemma serve_get_inventory_id id d f :
  serve (GET_inventory_id id) d f =
  store_access sql_get [JStr id]
    (fun r => match rows r with
              | [] => not_found
              | first :: _ => res_json 200 (item_json first)
              end)
    "GET /inventory/:id error:" database_error d f.
Proof. apply run_store_access. intros r w. by destruct (rows r). Qed.

Lemma serve_post_inventory b d f :
  serve (POST_inventory b) d f =
  if rejected b then (Returned bad_request, World d f 0 [] [])
  else store_access sql_insert (bound_values b)
         (fun _ => res_json 200 (message_body "Item added"))
         "POST /inventory error:" database_error d f.
Proof.
  unfold serve, app, post_inventory. destruct (rejected b); [reflexivity|].
  apply run_store_access. reflexivity.
Qed.

Lemma serve_put_inventory_id id b d f :
  serve (PUT_inventory_id id b) d f =
  if rejected b then (Returned bad_request, World d f 0 [] [])
  else store_access sql_update (bound_values b ++ [JStr id])
         (fun r => if Nat.eqb (affectedRows r) 0 then not_found
                   else res_json 200 (message_body "Item updated"))
         "PUT /inventory/:id error:" database_error d f.
Proof.
  unfold serve, app, put_inventory_id. destruct (rejected b); [reflexivity|].
  apply run_store_access. intros r w. by destruct (Nat.eqb _ _).
Qed.

Lemma serve_delete_inventory_id id d f :
  serve (DELETE_inventory_id id) d f =
  store_access sql_delete [JStr id]
    (fun r => if Nat.eqb (affectedRows r) 0 then not_found
              else res_json 200 (message_body "Item deleted"))
    "DELETE /inventory/:id error:" database_error d f.
Proof. apply run_store_access. intros r w. by destruct (Nat.eqb _ _). Qed.

Lemma serve_get_export_csv d f :
  serve GET_export_csv d f =
  store_access sql_list []
    (fun r => Response 200 [SetHeader "Content-Type" "text/csv"; Attachment "inventory.csv"]
                (TextBody (json2csv_parse csv_fields (rows r))))
    "GET /export/csv error:" (res_send 500 "Failed to export CSV") d f.
Proof. apply run_store_access. reflexivity. Qed.

Lemma serve_get_export_pdf d f :
  serve GET_export_pdf d f =
  store_access sql_list []
    (fun r => Response 200
                [SetHeader "Content-disposition"
                   ("attachment; filename=" +:+
                    String Csv.dquote ("inventory.pdf" +:+ String Csv.dquote EmptyString));
                 SetHeader "Content-type" "application/pdf"]
                (PdfBody (pdf_report (rows r))))
    "GET /export/pdf error:" (res_send 500 "Failed to export PDF") d f.
Proof. apply run_store_access. reflexivity. Qed.

Lemma execute_list d :
  execute sql_list [] d = Some (QueryResult (merge_sort by_name (table d)) 0, d).
Proof. reflexivity. Qed.

Lemma execute_get p d :
  execute sql_get [p] d = Some (QueryResult (List.filter (matching p) (table d)) 0, d).
Proof. reflexivity. Qed.

Lemma execute_insert n q p c s d :
  execute sql_insert [n; q; p; c; s] d =
  Some (QueryResult [] 1,
        Database (table d ++ [Item (next_id d) (column_value n) (column_value q)
                                (column_value p) (column_value c) (column_value s)])
                 (next_id d + 1)).
Proof. reflexivity. Qed.

Lemma execute_update n q p c s i d :
  execute sql_update [n; q; p; c; s; i] d =
  Some (QueryResult [] (length (List.filter (matching i) (table d))),
        Database (map (fun it => if matching i it then overwrite n q p c s it else it) (table d))
                 (next_id d)).
Proof. reflexivity. Qed.

Lemma execute_delete i d :
  execute sql_delete [i] d =
  Some (QueryResult [] (length (List.filter (matching i) (table d))),
        Database (List.filter (fun it => negb (matching i it)) (table d)) (next_id d)).
Proof. reflexivity. Qed.
End Runs.

(** ** The routes and the store *)

Section Routes.

Context {P : Platform}.

Lemma serve_route r d f :
  reaches_store r = true ->
  exists sql ps k label,
    serve r d f = store_access sql ps k label (failure_response r) d f
    /\ exists res, execute sql ps d = Some res.
Proof.
  intros Hr. destruct r as [|id|b|id b|id| |]; simpl in Hr.
  - do 4 eexists. split; [apply serve_get_inventory | eexists; apply execute_list].
  - do 4 eexists. split; [apply serve_get_inventory_id | eexists; apply execute_get].
  - apply negb_true_iff in Hr. do 4 eexists.
    split; [rewrite serve_post_inventory, Hr; reflexivity | eexists; apply execute_insert].
  - apply negb_true_iff in Hr. do 4 eexists.
    split; [rewrite serve_put_inventory_id, Hr; reflexivity | eexists; apply execute_update].
  - do 4 eexists. split; [apply serve_delete_inventory_id | eexists; apply execute_delete].
  - do 4 eexists. split; [apply serve_get_export_csv | eexists; apply execute_list].
  - do 4 eexists. split; [apply serve_get_export_pdf | eexists; apply execute_list].
Qed.

Lemma serve_rejected r d f :
  reaches_store r = false -> serve r d f = (Returned bad_request, World d f 0 [] []).
Proof.
  intros Hr. destruct r as [|id|b|id b|id| |]; simpl in Hr; try discriminate;
    apply negb_false_iff in Hr.
  - by rewrite serve_post_inventory, Hr.
  - by rewrite serve_put_inventory_id, Hr.
Qed.

Lemma filter_nil_existsb {A} (p : A -> bool) l :
  existsb p l = false -> List.filter p l = [].
Proof.
  induction l as [|x l IH]; simpl; [done|].
  intros Hx. apply orb_false_iff in Hx as [-> Hl]. auto.
Qed.

Lemma filter_cons_existsb {A} (p : A -> bool) l :
  existsb p l = true -> exists x l', List.filter p l = x :: l'.
Proof.
  induction l as [|x l IH]; simpl; [done|].
  destruct (p x); simpl; eauto.
Qed.

End Routes.

(** ** The statements of the two writes *)

Section Writes.

Context {P : Platform}.

Lemma execute_insert_bound b d :
  execute sql_insert (bound_values b) d =
  Some (QueryResult [] 1,
        Database (table d ++ [written b (Item (next_id d) CNull CNull CNull CNull CNull)])
                 (next_id d + 1)).
Proof. reflexivity. Qed.

Lemma execute_update_bound b id d :
  execute sql_update (bound_values b ++ [JStr id]) d =
  Some (QueryResult [] (length (List.filter (matching (JStr id)) (table d))),
        Database
          (map (fun it => if matching (JStr id) it then written b it else it) (table d))
          (next_id d)).
Proof. reflexivity. Qed.

End Writes.

(** ** CSV export *)

(** C1.  The CSV export answers with the document that json2csv builds
    from the rows in the order of the store (sorted by name), and reading
    that document back as CSV gives the header followed by one record per
    row whose fields are, field for field, the texts of the row.  A field
    that contains a comma, a quote or a newline is written between quotes
    with its quotes doubled, and any field whatever, written on a line of
    its own, is read back as it was. *)
Theorem csv_export_round_trip {P : Platform} (d : database) :
  let sorted := merge_sort by_name (table d) in
  reply GET_export_csv d no_faults
  = Returned
      (Response 200 [SetHeader "Content-Type" "text/csv"; Attachment "inventory.csv"]
         (TextBody (json2csv_parse csv_fields sorted)))
  /\ Csv.parse (json2csv_parse csv_fields sorted)
     = Some (csv_fields :: map (csv_record csv_fields) sorted)
  /\ forall f : string,
       Csv.field f
       = (if Csv.needs_quoting f
          then String Csv.dquote (Csv.double_quotes f +:+ String Csv.dquote EmptyString)
          else f)
       /\ Csv.parse (Csv.line [f]) = Some [[f]].
Proof.
  intros sorted. split; [|split].
  - unfold reply. rewrite serve_get_export_csv. reflexivity.
  - unfold json2csv_parse. apply CsvFacts.parse_document; [done|].
    apply Forall_forall. intros r Hr. apply list_elem_of_fmap in Hr as (it & -> & _). done.
  - intros f. split; [reflexivity|].
    pose proof (CsvFacts.parse_document [f] [] ltac:(done) ltac:(constructor)) as Hp.
    unfold Csv.document in Hp. simpl Csv.lines in Hp.
    by rewrite string_app_empty_r in Hp.
Qed.

(** C2.  With no row in the store the CSV export answers 200 with
    exactly the six column names separated by commas and followed by one
    newline. *)
Theorem csv_export_of_empty_store {P : Platform} (n : Z) :
  reply GET_export_csv (Database [] n) no_faults
  = Returned
      (Response 200 [SetHeader "Content-Type" "text/csv"; Attachment "inventory.csv"]
         (TextBody ("id,name,quantity,price,category,supplier" +:+ String Csv.LF EmptyString))).
Proof. unfold reply. rewrite serve_get_export_csv. reflexivity. Qed.

(** ** Not found *)

(** C3.  When no row has the id, get-by-id, update (of a body that
    passed validation, so that the statement is sent) and delete each
    answer 404 with the body [{error: "Item not found"}] in every run in
    which the store itself does not fail: the 500 of a store error is
    never the answer to an id that is missing.  And when some row has the
    id, neither update nor delete answers 404, whatever the body and
    whatever the store does. *)
Theorem missing_id_is_not_found {P : Platform} (id : string) (d : database) :
  (has_match id d = false ->
   forall f,
     (store_failed (trace (after (GET_inventory_id id) d f)) = false ->
      reply (GET_inventory_id id) d f = Returned not_found)
     /\ (forall b, rejected b = false ->
         store_failed (trace (after (PUT_inventory_id id b) d f)) = false ->
         reply (PUT_inventory_id id b) d f = Returned not_found)
     /\ (store_failed (trace (after (DELETE_inventory_id id) d f)) = false ->
         reply (DELETE_inventory_id id) d f = Returned not_found))
  /\ (has_match id d = true ->
      forall b f res,
        (reply (PUT_inventory_id id b) d f = Returned res -> status res <> 404)
        /\ (reply (DELETE_inventory_id id) d f = Returned res -> status res <> 404)).
Proof.
  unfold has_match, reply, after. split.
  - intros Hm f. apply filter_nil_existsb in Hm. split; [|split].
    + rewrite serve_get_inventory_id. unfold store_access.
      rewrite execute_get. by_faults f; simpl; try discriminate. by rewrite Hm.
    + intros b Hb. rewrite serve_put_inventory_id, Hb. unfold store_access.
      rewrite execute_update_bound. by_faults f; simpl; try discriminate. by rewrite Hm.
    + rewrite serve_delete_inventory_id. unfold store_access.
      rewrite execute_delete. by_faults f; simpl; try discriminate. by rewrite Hm.
  - intros Hm b f res. apply filter_cons_existsb in Hm as (x & l & Hm). split.
    + rewrite serve_put_inventory_id. destruct (rejected b).
      { simpl. intros [= <-]. done. }
      unfold store_access. rewrite execute_update_bound.
      by_faults f; simpl; try (intros [= <-]; done).
      rewrite Hm. simpl. intros [= <-]. done.
    + rewrite serve_delete_inventory_id.
      unfold store_access. rewrite execute_delete.
      by_faults f; simpl; try (intros [= <-]; done).
      rewrite Hm. simpl. intros [= <-]. done.
Qed.

(** ** Validation *)

Lemma truthy_nonempty s : s <> EmptyString -> truthy (JStr s) = true.
Proof. by destruct s. Qed.

Lemma attempts_store_access {P : Platform} sql ps k label fail d f res :
  execute sql ps d = Some res ->
  attempts sql ps (trace (snd (store_access sql ps k label fail d f))).
Proof.
  intros He. unfold store_access. rewrite He. destruct res as [r d'].
  destruct (connect_fault f); [by left|].
  right. destruct (query_fault f); [eexists; right; reflexivity|].
  destruct (end_fault f); eexists; left; reflexivity.
Qed.

(** C4.  A create whose [name] is absent or empty, or whose [quantity]
    is absent, is answered 400 with [{error: "Name and quantity are
    required"}] and the handler does not go to the store, which stays as
    it was; a create with a non-empty [name] and a [quantity] that is
    there passes validation and goes to the store with the INSERT, and
    when the store answers the row is added. *)
Theorem create_validation {P : Platform} (b : gmap string jsval) (d : database) (f : faults) :
  (loosely_null (field_of b "name") = true
   \/ field_of b "name" = JStr EmptyString
   \/ loosely_null (field_of b "quantity") = true ->
     reply (POST_inventory b) d f = Returned bad_request
     /\ store (after (POST_inventory b) d f) = d
     /\ trace (after (POST_inventory b) d f) = [])
  /\ (forall s, field_of b "name" = JStr s -> s <> EmptyString ->
      loosely_null (field_of b "quantity") = false ->
        rejected b = false
        /\ attempts sql_insert (bound_values b) (trace (after (POST_inventory b) d f))
        /\ (f = no_faults ->
            reply (POST_inventory b) d f = Returned (res_json 200 (message_body "Item added"))
            /\ table (store (after (POST_inventory b) d f))
               = table d ++ [written b (Item (next_id d) CNull CNull CNull CNull CNull)])).
Proof.
  unfold reply, after. split.
  - intros Hbad. assert (rejected b = true) as Hr.
    { unfold rejected. destruct Hbad as [Hn | [Hn | Hq]].
      - by destruct (field_of b "name").
      - by rewrite Hn.
      - rewrite Hq. apply orb_true_r. }
    rewrite serve_post_inventory, Hr. done.
  - intros s Hn Hs Hq. assert (rejected b = false) as Hr.
    { unfold rejected. by rewrite Hn, Hq, truthy_nonempty. }
    rewrite serve_post_inventory, Hr. split; [done|]. split.
    + eapply attempts_store_access, execute_insert_bound.
    + intros ->. unfold store_access. rewrite execute_insert_bound. done.
Qed.

(** C9.  Validation is not the same test for the two required fields, on
    create and on update alike: the body is rejected exactly when [name]
    is falsy or [quantity] is [null] or absent.  So a body with a
    non-empty name and the quantity [0] passes and the handler goes to
    the store, and a body whose name is the empty string is answered 400
    although its quantity is there. *)
Theorem validation_asymmetry {P : Platform} (b : gmap string jsval) (id : string)
    (d : database) (f : faults) :
  rejected b = negb (truthy (field_of b "name")) || loosely_null (field_of b "quantity")
  /\ (forall s, field_of b "name" = JStr s -> s <> EmptyString ->
      field_of b "quantity" = JNum (Finite 0) ->
        rejected b = false
        /\ attempts sql_insert (bound_values b) (trace (after (POST_inventory b) d f))
        /\ attempts sql_update (bound_values b ++ [JStr id])
             (trace (after (PUT_inventory_id id b) d f)))
  /\ (field_of b "name" = JStr EmptyString ->
      loosely_null (field_of b "quantity") = false ->
        reply (POST_inventory b) d f = Returned bad_request
        /\ reply (PUT_inventory_id id b) d f = Returned bad_request).
Proof.
  unfold reply, after. split; [reflexivity|]. split.
  - intros s Hn Hs Hq. assert (rejected b = false) as Hr.
    { unfold rejected. by rewrite Hn, Hq, truthy_nonempty. }
    rewrite serve_post_inventory, serve_put_inventory_id, Hr. split; [done|]. split.
    + eapply attempts_store_access, execute_insert_bound.
    + eapply attempts_store_access, execute_update_bound.
  - intros Hn Hq. assert (rejected b = true) as Hr.
    { unfold rejected. by rewrite Hn. }
    by rewrite serve_post_inventory, serve_put_inventory_id, Hr.
Qed.

(** ** Defaults *)

Lemma written_price {P : Platform} b it :
  truthy (field_of b "price") = false ->
  item_price (written b it) = column_value (JNum (Finite 0)).
Proof. intros Hp. unfold written, overwrite, js_or. simpl. by rewrite Hp. Qed.

Lemma written_category {P : Platform} b it :
  truthy (field_of b "category") = false ->
  item_category (written b it) = column_value (JStr EmptyString).
Proof. intros Hp. unfold written, overwrite, js_or. simpl. by rewrite Hp. Qed.

Lemma written_supplier {P : Platform} b it :
  truthy (field_of b "supplier") = false ->
  item_supplier (written b it) = column_value (JStr EmptyString).
Proof. intros Hp. unfold written, overwrite, js_or. simpl. by rewrite Hp. Qed.

(** C10.  On create and on update a falsy value that was supplied is
    replaced like one that was not: [0], the empty string, [null] and
    [false] are falsy; a falsy [price] is bound as [0], a falsy
    [category] or [supplier] as the empty string; the statement that goes
    to the store carries these values, and the row that the create adds
    and every row that the update reaches holds them. *)
Theorem falsy_values_are_defaulted {P : Platform} (b : gmap string jsval) (id : string)
    (d : database) :
  Forall (fun v => truthy v = false) [JNum (Finite 0); JStr EmptyString; JNull; JBool false]
  /\ (truthy (field_of b "price") = false -> bound_values b !! 2%nat = Some (JNum (Finite 0)))
  /\ (truthy (field_of b "category") = false -> bound_values b !! 3%nat = Some (JStr EmptyString))
  /\ (truthy (field_of b "supplier") = false -> bound_values b !! 4%nat = Some (JStr EmptyString))
  /\ (rejected b = false ->
      trace (after (POST_inventory b) d no_faults)
      = [Connected; Queried sql_insert (bound_values b); Ended]
      /\ trace (after (PUT_inventory_id id b) d no_faults)
         = [Connected; Queried sql_update (bound_values b ++ [JStr id]); Ended]
      /\ (exists new, table (store (after (POST_inventory b) d no_faults)) = table d ++ [new]
            /\ (truthy (field_of b "price") = false ->
                item_price new = column_value (JNum (Finite 0)))
            /\ (truthy (field_of b "category") = false ->
                item_category new = column_value (JStr EmptyString))
            /\ (truthy (field_of b "supplier") = false ->
                item_supplier new = column_value (JStr EmptyString)))
      /\ (forall it, In it (table (store (after (PUT_inventory_id id b) d no_faults))) ->
          matching (JStr id) it = true ->
            (truthy (field_of b "price") = false ->
             item_price it = column_value (JNum (Finite 0)))
            /\ (truthy (field_of b "category") = false ->
                item_category it = column_value (JStr EmptyString))
            /\ (truthy (field_of b "supplier") = false ->
                item_supplier it = column_value (JStr EmptyString)))).
Proof.
  split; [repeat constructor|].
  split; [intros Hp; unfold bound_values, js_or; by rewrite Hp|].
  split; [intros Hp; unfold bound_values, js_or; by rewrite Hp|].
  split; [intros Hp; unfold bound_values, js_or; by rewrite Hp|].
  intros Hr. unfold after.
  rewrite serve_post_inventory, serve_put_inventory_id, Hr. unfold store_access.
  rewrite execute_insert_bound, execute_update_bound. simpl.
  split; [done|]. split; [done|]. split.
  - eexists. split; [reflexivity|].
    auto using written_price, written_category, written_supplier.
  - intros it Hin Hm. apply in_map_iff in Hin as (it0 & <- & _).
    destruct (matching (JStr id) it0) eqn:Hm0; [|congruence].
    auto using written_price, written_category, written_supplier.
Qed.

(** ** PDF export *)

(** C5, as the code has it.  In a row of the PDF a quantity that is
    missing is drawn as "0", a category or a supplier that is missing as
    "-", and the price as the glyph of line 192 followed by
    [(parseFloat(price) || 0).toFixed(2)]: that is "0.00" when the price
    is missing or does not read as a number, and a numeral with exactly
    two decimal places whenever the amount is finite and below 10^21 in
    magnitude. *)
Theorem pdf_row_rendering {P : Platform} (it : item) (y : Z) :
  pdf_row it y
  = [TextAt (item_name it) itemX y;
     TextAt (CStr (quantity_text it)) qtyX y;
     TextAt (CStr (currency_glyph +:+ toFixed2 (price_amount it))) priceX y;
     TextAt (cell_or (item_category it) (CStr "-")) categoryX y;
     TextAt (cell_or (item_supplier it) (CStr "-")) supplierX y]
  /\ (item_quantity it = CNull -> quantity_text it = "0")
  /\ (item_category it = CNull -> cell_or (item_category it) (CStr "-") = CStr "-")
  /\ (item_supplier it = CNull -> cell_or (item_supplier it) (CStr "-") = CStr "-")
  /\ (item_price it = CNull \/ parseFloat (item_price it) = NaN ->
      price_text it = currency_glyph +:+ "0.00")
  /\ (forall q, price_amount it = Finite q ->
      Z.abs (Qnum q) < 10 ^ 21 * Z.pos (Qden q) ->
      two_place_price it = true).
Proof.
  split; [reflexivity|].
  split; [intros Hq; unfold quantity_text; by rewrite Hq|].
  split; [by intros ->|]. split; [by intros ->|]. split.
  - intros Hp. assert (parseFloat (item_price it) = NaN) as Hn.
    { destruct Hp as [-> | Hp]; [reflexivity | exact Hp]. }
    unfold price_text, price_amount. by rewrite Hn.
  - intros q Hq Hlt. unfold two_place_price. rewrite Hq.
    by apply toFixed2_two_places.
Qed.

(** ** Connections *)

(** C6, as the code has it.  A request that gets as far as the store
    sends at most one statement.  When the connection cannot be opened no
    statement is sent and no connection is held; when it is opened
    exactly one statement is sent on it; when that statement succeeds the
    handler closes the connection, so that the trace is: connection
    opened, statement run, connection closed, and no connection is held
    at the end unless the closing itself fails. *)
Theorem store_access_discipline {P : Platform} (r : request) (d : database) (f : faults) :
  reaches_store r = true ->
  (statements (trace (after r d f)) <= 1)%nat
  /\ (connect_fault f <> None ->
      trace (after r d f) = [ConnectFailed] /\ open_connections (after r d f) = 0%nat)
  /\ (connect_fault f = None ->
      head (trace (after r d f)) = Some Connected
      /\ statements (trace (after r d f)) = 1%nat)
  /\ (connect_fault f = None -> query_fault f = None ->
      exists sql ps,
        (end_fault f = None
         /\ trace (after r d f) = [Connected; Queried sql ps; Ended]
         /\ open_connections (after r d f) = 0%nat)
        \/ (end_fault f <> None
            /\ trace (after r d f) = [Connected; Queried sql ps; EndFailed])).
Proof.
  intros Hr. unfold after.
  destruct (serve_route r d f Hr) as (sql & ps & k & label & -> & [[res d'] He]).
  unfold store_access, statements. rewrite He.
  split; [|split; [|split]].
  - by_faults f; simpl; lia.
  - destruct (connect_fault f); [done|]. by intros [].
  - intros ->. destruct (query_fault f), (end_fault f); done.
  - intros -> ->. exists sql, ps. destruct (end_fault f); [right | left]; done.
Qed.

(** ** Store failures *)

(** C8.  Whenever the connection or the statement fails (or the closing
    of the connection), a JSON route
    answers 500 with exactly [{error: "Database error"}] and an export
    route answers 500 with its fixed plain text; the answer is the same
    for every failure of the store, whatever the store and whatever the
    error says, so nothing of the error reaches the client. *)
Theorem store_failure_is_reported_without_detail {P : Platform}
    (r : request) (d : database) (f : faults) :
  store_failed (trace (after r d f)) = true ->
  reply r d f = Returned (failure_response r)
  /\ failure_response r
     = match r with
       | GET_export_csv => Response 500 [] (TextBody "Failed to export CSV")
       | GET_export_pdf => Response 500 [] (TextBody "Failed to export PDF")
       | _ => Response 500 [] (JsonBody (JObj [("error", JStr "Database error")]))
       end
  /\ forall d' f', store_failed (trace (after r d' f')) = true ->
                   reply r d' f' = reply r d f.
Proof.
  assert (forall d f, store_failed (trace (after r d f)) = true ->
                      reply r d f = Returned (failure_response r)) as Hfail.
  { clear d f. intros d f Hf. unfold reply, after in *.
    destruct (reaches_store r) eqn:Hr.
    - destruct (serve_route r d f Hr) as (sql & ps & k & label & Hs & [[res d'] He]).
      rewrite Hs in *. unfold store_access in *. rewrite He in *.
      by_faults f; done.
    - rewrite (serve_rejected r d f Hr) in Hf. discriminate. }
  intros Hf. split; [by apply Hfail|]. split; [by destruct r|].
  intros d' f' Hf'. by rewrite !Hfail.
Qed.

(** ** Order of the list *)

(** C7.  Where the collation of the name column is a total and
    transitive order, the rows that the store gives for the list-all
    statement are the rows of the table in ascending order of name, and
    the list route and the two export routes answer with these rows in
    this order. *)
Theorem list_all_is_sorted_by_name {P : Platform} (d : database) :
  (forall a b : cell, collate_leb a b = true \/ collate_leb b a = true) ->
  (forall a b c : cell, collate_leb a b = true -> collate_leb b c = true ->
                        collate_leb a c = true) ->
  let sorted := merge_sort by_name (table d) in
  StronglySorted by_name sorted
  /\ sorted ≡ₚ table d
  /\ execute sql_list [] d = Some (QueryResult sorted 0, d)
  /\ reply GET_inventory d no_faults = Returned (res_json 200 (rows_json sorted))
  /\ (exists hs, reply GET_export_csv d no_faults
                 = Returned (Response 200 hs (TextBody (json2csv_parse csv_fields sorted))))
  /\ (exists hs, reply GET_export_pdf d no_faults
                 = Returned (Response 200 hs (PdfBody (pdf_report sorted)))).
Proof.
  intros Htotal Htrans sorted.
  assert (Total by_name) as Ht by (intros a b; apply Htotal).
  assert (Transitive by_name) as Hr by (intros a b c; apply Htrans).
  split; [apply StronglySorted_merge_sort; done|].
  split; [apply merge_sort_Permutation|].
  split; [reflexivity|]. unfold reply.
  rewrite serve_get_inventory, serve_get_export_csv, serve_get_export_pdf.
  split; [reflexivity|]. split; eexists; reflexivity.
Qed.

(** * The properties on the reference platform *)

Lemma binary_collation_total (a b : cell) :
  binary_collation a b = true \/ binary_collation b a = true.
Proof. unfold binary_collation. apply String.leb_total. Qed.

Lemma binary_collation_transitive (a b c : cell) :
  binary_collation a b = true -> binary_collation b c = true -> binary_collation a c = true.
Proof.
  unfold binary_collation. intros Hab Hbc.
  apply Is_true_true. apply Is_true_true in Hab, Hbc.
  exact (transitivity (R := String.le) Hab Hbc).
Qed.

Section Reference.

#[local] Existing Instance reference_platform.

(** The model at work. *)

Example number_texts :
  map NumberToString
    [Finite 0; Finite 5; Finite (-1200); Finite (inject_Z (10 ^ 20));
     Finite (inject_Z (10 ^ 21)); Infinity false; NaN]
  = ["0"; "5"; "-1200"; "100000000000000000000"; "1e+21"; "Infinity"; "NaN"].
Proof. reflexivity. Qed.

Example fixed_texts :
  map toFixed2
    [Finite 0; Finite 12; Finite (123456 # 100); Finite (5 # 1000); Finite (-(5 # 2));
     Finite (-(1 # 1000)); Finite (1999999 # 1000000)]
  = ["0.00"; "12.00"; "1234.56"; "0.01"; "-2.50"; "-0.00"; "2.00"].
Proof. reflexivity. Qed.

Example csv_of_a_quoted_name :
  Csv.document ["id"; "name"]
    [["1"; "Anvil, big"]; ["2"; String Csv.dquote "x"]]
  = "id,name" +:+ String Csv.LF
      ("1," +:+ String Csv.dquote ("Anvil, big" +:+ String Csv.dquote (String Csv.LF
      ("2," +:+ String Csv.dquote (String Csv.dquote (String Csv.dquote
                  ("x" +:+ String Csv.dquote (String Csv.LF EmptyString)))))))).
Proof. reflexivity. Qed.

Example csv_of_sample_store :
  reply GET_export_csv sample_store no_faults
  = Returned
      (Response 200 [SetHeader "Content-Type" "text/csv"; Attachment "inventory.csv"]
         (TextBody
            ("id,name,quantity,price,category,supplier" +:+ String Csv.LF
               ("2,Anvil,,,,acme" +:+ String Csv.LF
                  ("1,Widget,5,12,tools," +:+ String Csv.LF EmptyString))))).
Proof. reflexivity. Qed.

Example pdf_row_of_widget :
  pdf_row (Item 1 (CStr "Widget") (CNum (Finite 5)) (CNum (Finite 12)) (CStr "tools") CNull) 120
  = [TextAt (CStr "Widget") 50 120;
     TextAt (CStr "5") 200 120;
     TextAt (CStr (currency_glyph +:+ "12.00")) 260 120;
     TextAt (CStr "tools") 330 120;
     TextAt (CStr "-") 420 120].
Proof. reflexivity. Qed.

Example delete_of_a_missing_id :
  serve (DELETE_inventory_id "999999") sample_store no_faults
  = (Returned not_found,
     World sample_store no_faults 0
       [Connected; Queried sql_delete [JStr "999999"]; Ended] []).
Proof. reflexivity. Qed.

Example create_then_get :
  let created := store (after (POST_inventory sample_body) sample_store no_faults) in
  reply (GET_inventory_id "3") created no_faults
  = Returned
      (res_json 200
         (JObj [("id", JNum (Finite 3)); ("name", JStr "Nut"); ("quantity", JNum (Finite 0));
                ("price", JNum (Finite 0)); ("category", JStr EmptyString);
                ("supplier", JStr EmptyString)])).
Proof. reflexivity. Qed.

Lemma missing_id_is_not_found_witness :
  (has_match "7" sample_store = false
   /\ reply (GET_inventory_id "7") sample_store no_faults = Returned not_found
   /\ reply (PUT_inventory_id "7" sample_body) sample_store no_faults = Returned not_found
   /\ reply (DELETE_inventory_id "7") sample_store no_faults = Returned not_found)
  /\ (has_match "1" sample_store = true
      /\ forall res,
           reply (DELETE_inventory_id "1") sample_store statement_failure = Returned res ->
           status res <> 404).
Proof.
  destruct (missing_id_is_not_found "7" sample_store) as [Hmissing _].
  destruct (missing_id_is_not_found "1" sample_store) as [_ Hthere].
  split.
  - split; [reflexivity|].
    destruct (Hmissing eq_refl no_faults) as (Hget & Hput & Hdel).
    split; [exact (Hget eq_refl)|].
    split; [exact (Hput sample_body eq_refl eq_refl) | exact (Hdel eq_refl)].
  - split; [reflexivity|].
    intros res. exact (proj2 (Hthere eq_refl sample_body statement_failure res)).
Defined.

Lemma create_validation_witness :
  (loosely_null (field_of nameless_body "name") = true
   /\ reply (POST_inventory nameless_body) sample_store no_faults = Returned bad_request
   /\ store (after (POST_inventory nameless_body) sample_store no_faults) = sample_store)
  /\ (field_of sample_body "name" = JStr "Nut"
      /\ rejected sample_body = false
      /\ reply (POST_inventory sample_body) sample_store no_faults
         = Returned (res_json 200 (message_body "Item added"))).
Proof.
  destruct (create_validation nameless_body sample_store no_faults) as [Hbad _].
  destruct (create_validation sample_body sample_store no_faults) as [_ Hgood].
  split.
  - split; [reflexivity|].
    destruct (Hbad (or_introl eq_refl)) as (Hreply & Hstore & _). by split.
  - split; [reflexivity|].
    destruct (Hgood "Nut" eq_refl ltac:(discriminate) eq_refl) as (Hr & _ & Hadded).
    split; [exact Hr|]. exact (proj1 (Hadded eq_refl)).
Defined.

Lemma validation_asymmetry_witness :
  (field_of sample_body "quantity" = JNum (Finite 0)
   /\ rejected sample_body = false
   /\ attempts sql_insert (bound_values sample_body)
        (trace (after (POST_inventory sample_body) sample_store no_faults)))
  /\ (field_of empty_name_body "name" = JStr EmptyString
      /\ reply (POST_inventory empty_name_body) sample_store no_faults = Returned bad_request
      /\ reply (PUT_inventory_id "1" empty_name_body) sample_store no_faults
         = Returned bad_request).
Proof.
  destruct (validation_asymmetry sample_body "1" sample_store no_faults) as (_ & Hzero & _).
  destruct (validation_asymmetry empty_name_body "1" sample_store no_faults)
    as (_ & _ & Hempty).
  split.
  - split; [reflexivity|].
    destruct (Hzero "Nut" eq_refl ltac:(discriminate) eq_refl) as (Hr & Hpost & _).
    by split.
  - split; [reflexivity|]. exact (Hempty eq_refl eq_refl).
Defined.

Lemma falsy_values_are_defaulted_witness :
  truthy (field_of sample_body "price") = false
  /\ truthy (field_of sample_body "category") = false
  /\ truthy (field_of sample_body "supplier") = false
  /\ rejected sample_body = false
  /\ bound_values sample_body
     = [JStr "Nut"; JNum (Finite 0); JNum (Finite 0); JStr EmptyString; JStr EmptyString]
  /\ trace (after (POST_inventory sample_body) sample_store no_faults)
     = [Connected; Queried sql_insert (bound_values sample_body); Ended].
Proof.
  destruct (falsy_values_are_defaulted sample_body "1" sample_store)
    as (_ & Hprice & Hcategory & Hsupplier & Hsent).
  pose proof (Hprice eq_refl) as Hp.
  pose proof (Hcategory eq_refl) as Hc.
  pose proof (Hsupplier eq_refl) as Hs.
  destruct (Hsent eq_refl) as (Hpost & _).
  repeat (split; [reflexivity|]). exact Hpost.
Defined.

Lemma pdf_row_rendering_witness :
  item_quantity bare_item = CNull
  /\ quantity_text bare_item = "0"
  /\ cell_or (item_category bare_item) (CStr "-") = CStr "-"
  /\ cell_or (item_supplier bare_item) (CStr "-") = CStr "-"
  /\ price_text bare_item = currency_glyph +:+ "0.00"
  /\ two_place_price bare_item = true.
Proof.
  destruct (pdf_row_rendering bare_item 120) as (_ & Hq & Hc & Hs & Hp & Htwo).
  split; [reflexivity|]. split; [exact (Hq eq_refl)|].
  split; [exact (Hc eq_refl)|]. split; [exact (Hs eq_refl)|].
  split; [exact (Hp (or_introl eq_refl))|].
  apply (Htwo 0%Q); [reflexivity | reflexivity].
Defined.

Lemma store_access_discipline_witness :
  reaches_store GET_inventory = true
  /\ trace (after GET_inventory sample_store connection_failure) = [ConnectFailed]
  /\ statements (trace (after GET_inventory sample_store statement_failure)) = 1%nat
  /\ exists sql ps,
       trace (after GET_inventory sample_store no_faults) = [Connected; Queried sql ps; Ended]
       /\ open_connections (after GET_inventory sample_store no_faults) = 0%nat.
Proof.
  destruct (store_access_discipline GET_inventory sample_store connection_failure eq_refl)
    as (_ & Hrefused & _).
  destruct (store_access_discipline GET_inventory sample_store statement_failure eq_refl)
    as (_ & _ & Hopened & _).
  destruct (store_access_discipline GET_inventory sample_store no_faults eq_refl)
    as (_ & _ & _ & Hclean).
  split; [reflexivity|].
  split; [exact (proj1 (Hrefused ltac:(discriminate)))|].
  split; [exact (proj2 (Hopened eq_refl))|].
  destruct (Hclean eq_refl eq_refl) as (sql & ps & [(_ & Htrace & Hopen) | (Hend & _)]).
  - exists sql, ps. by split.
  - by destruct Hend.
Defined.

Lemma list_all_is_sorted_by_name_witness :
  StronglySorted by_name (merge_sort by_name (table sample_store))
  /\ merge_sort by_name (table sample_store)
     = [Item 2 (CStr "Anvil") CNull CNull CNull (CStr "acme");
        Item 1 (CStr "Widget") (CNum (Finite 5)) (CNum (Finite 12)) (CStr "tools") CNull].
Proof.
  destruct (list_all_is_sorted_by_name (P := reference_platform) sample_store
              binary_collation_total binary_collation_transitive) as (Hsorted & _).
  split; [exact Hsorted | reflexivity].
Defined.

Lemma store_failure_is_reported_without_detail_witness :
  store_failed (trace (after GET_inventory sample_store statement_failure)) = true
  /\ reply GET_inventory sample_store statement_failure = Returned database_error
  /\ store_failed (trace (after GET_export_pdf sample_store connection_failure)) = true
  /\ reply GET_export_pdf sample_store connection_failure
     = Returned (res_send 500 "Failed to export PDF").
Proof.
  split; [reflexivity|].
  split;
    [exact (proj1 (store_failure_is_reported_without_detail
                     GET_inventory sample_store statement_failure eq_refl))|].
  split; [reflexivity|].
  exact (proj1 (store_failure_is_reported_without_detail
                  GET_export_pdf sample_store connection_failure eq_refl)).
Defined.

(** C5, as the specification has it, fails: the price 10^21 is drawn in
    exponent notation, without decimal places. *)
Lemma huge_price_has_no_decimal_places :
  price_text huge_price = currency_glyph +:+ "1e+21"
  /\ two_place_price huge_price = false.
Proof. split; reflexivity. Qed.

(** C6, as the specification has it, fails: when the statement fails
    the handler answers without closing the connection it has opened. *)
Lemma failed_statement_leaves_connection_open :
  trace (after GET_inventory sample_store statement_failure)
  = [Connected; QueryFailed sql_list []]
  /\ open_connections (after GET_inventory sample_store statement_failure) = 1%nat
  /\ ~ scoped_access (after GET_inventory sample_store statement_failure).
Proof.
  split; [reflexivity|]. split; [reflexivity|].
  intros (_ & _ & Hopen). discriminate Hopen.
Qed.

End Reference.

(** * Further properties of the handlers *)

Section Shape.

Context {P : Platform}.

Lemma execute_route r d :
  execute (route_sql r) (route_params r) d = Some (route_effect r d).
Proof. destruct r; reflexivity. Qed.

Lemma serve_shape r d f :
  serve r d f =
  if reaches_store r
  then store_access (route_sql r) (route_params r) (route_answer r) (route_label r)
         (failure_response r) d f
  else (Returned bad_request, World d f 0 [] []).
Proof.
  destruct r as [|id|b|id b|id| |]; simpl reaches_store.
  - apply serve_get_inventory.
  - apply serve_get_inventory_id.
  - rewrite serve_post_inventory. by destruct (rejected b).
  - rewrite serve_put_inventory_id. by destruct (rejected b).
  - apply serve_delete_inventory_id.
  - apply serve_get_export_csv.
  - apply serve_get_export_pdf.
Qed.

(** The run of a request that gets to the store, by its faults. *)
Lemma serve_reached r d f :
  reaches_store r = true ->
  serve r d f =
  match connect_fault f with
  | Some e => (Returned (failure_response r),
               World d f 0 [ConnectFailed] [(route_label r, e)])
  | None =>
      match query_fault f with
      | Some e =>
          (Returned (failure_response r),
           World d f 1 [Connected; QueryFailed (route_sql r) (route_params r)]
             [(route_label r, e)])
      | None =>
          match end_fault f with
          | Some e =>
              (Returned (failure_response r),
               World (snd (route_effect r d)) f 1
                 [Connected; Queried (route_sql r) (route_params r); EndFailed]
                 [(route_label r, e)])
          | None =>
              (Returned (route_answer r (fst (route_effect r d))),
               World (snd (route_effect r d)) f 0
                 [Connected; Queried (route_sql r) (route_params r); Ended] [])
          end
      end
  end.
Proof.
  intros Hr. rewrite serve_shape, Hr. unfold store_access.
  rewrite execute_route. by destruct (route_effect r d).
Qed.

End Shape.

Section Outcomes.

Context {P : Platform}.

Lemma has_match_filter id d :
  has_match id d = negb (Nat.eqb (length (List.filter (matching (JStr id)) (table d))) 0).
Proof.
  unfold has_match. induction (table d) as [|it l IH]; simpl; [done|].
  destruct (matching (JStr id) it); simpl; [done | exact IH].
Qed.

Lemma status_of_failure r : status (failure_response r) = 500.
Proof. by destruct r. Qed.

(** The status of the answer of a route whose statement has run. *)
Lemma status_of_answer r d :
  status (route_answer r (fst (route_effect r d)))
  = match route_id r with
    | Some id => if has_match id d then 200 else 404
    | None => 200
    end.
Proof.
  destruct r as [|id|b|id b|id| |]; simpl; try reflexivity;
    rewrite has_match_filter;
    destruct (List.filter (matching (JStr id)) (table d)); reflexivity.
Qed.

(** X1.  No handler lets an error escape: whatever the store does, and
    whatever the request, the handler ends with an answer. *)
Theorem handlers_never_throw (r : request) (d : database) (f : faults) :
  exists res, reply r d f = Returned res.
Proof.
  unfold reply. destruct (reaches_store r) eqn:Hr.
  - rewrite (serve_reached r d f Hr). by_faults f; eauto.
  - rewrite (serve_rejected r d f Hr). eauto.
Qed.

(** X2.  The status of an answer tells what happened.  It is one of 200,
    400, 404 and 500; it is 400 exactly when validation rejected the body
    (so only on create and update); it is 500 exactly when the store
    failed (connection, statement or closing); it is 404 only on a route
    with an id in its path and no row with that id; and it is 200 only
    when the store did not fail and, on such a route, a row has the id. *)
Theorem status_tells_what_happened (r : request) (d : database) (f : faults)
    (res : response) :
  reply r d f = Returned res ->
  In (status res) [200; 400; 404; 500]
  /\ (status res = 400 <-> reaches_store r = false)
  /\ (status res = 500 <-> store_failed (trace (after r d f)) = true)
  /\ (status res = 404 ->
      exists id, route_id r = Some id /\ has_match id d = false)
  /\ (status res = 200 ->
      store_failed (trace (after r d f)) = false
      /\ forall id, route_id r = Some id -> has_match id d = true).
Proof.
  unfold reply, after. destruct (reaches_store r) eqn:Hr.
  - rewrite (serve_reached r d f Hr).
    by_faults f; simpl; intros [= <-]; rewrite ?status_of_failure;
      try (repeat split; (done || (simpl; tauto))).
    rewrite status_of_answer.
    destruct (route_id r) as [id|] eqn:Hid; [destruct (has_match id d) eqn:Hm|];
      repeat split; try done; try (simpl; tauto).
    + intros id' [= <-]. done.
    + eauto.
  - rewrite (serve_rejected r d f Hr). simpl. intros [= <-]. simpl.
    repeat split; try done; tauto.
Qed.

End Outcomes.

Section Dealings.

Context {P : Platform}.

(** X3.  An update is validated like a create, before anything else: a
    body whose [name] is falsy (absent, [null], the empty string, [0],
    [false]) or whose [quantity] is [null] or absent is answered 400, and
    the handler has then opened no connection, sent no statement, logged
    nothing and left the table as it was, whether or not a row has the
    id. *)
Theorem rejected_update_touches_nothing (id : string) (b : gmap string jsval)
    (d : database) (f : faults) :
  truthy (field_of b "name") = false \/ loosely_null (field_of b "quantity") = true ->
  serve (PUT_inventory_id id b) d f = (Returned bad_request, World d f 0 [] []).
Proof.
  intros Hbad. apply serve_rejected. simpl. apply negb_false_iff.
  unfold rejected. destruct Hbad as [-> | ->]; [done | apply orb_true_r].
Qed.

(** X4.  What a handler does with the store follows one of five courses
    and no other: nothing at all (a rejected body); a connection that
    fails; a connection and a statement that fails; a connection, a
    statement and the closing; or the same with a closing that fails.
    The statement is the literal of the route, one of the five of the
    file, and what the request carries goes into the bound parameters
    only.  So no handler sends a second statement, sends one without a
    connection, or closes a connection it has not used. *)
Theorem store_dealings_follow_one_of_five_courses (r : request) (d : database)
    (f : faults) :
  In (trace (after r d f))
    [[];
     [ConnectFailed];
     [Connected; QueryFailed (route_sql r) (route_params r)];
     [Connected; Queried (route_sql r) (route_params r); Ended];
     [Connected; Queried (route_sql r) (route_params r); EndFailed]]
  /\ In (route_sql r) [sql_list; sql_get; sql_insert; sql_update; sql_delete]
  /\ (trace (after r d f) = [] <-> reaches_store r = false).
Proof.
  unfold after. split; [|split].
  - destruct (reaches_store r) eqn:Hr.
    + rewrite (serve_reached r d f Hr). by_faults f; simpl; tauto.
    + rewrite (serve_rejected r d f Hr). simpl; tauto.
  - destruct r; simpl; tauto.
  - destruct (reaches_store r) eqn:Hr.
    + rewrite (serve_reached r d f Hr). by_faults f; done.
    + by rewrite (serve_rejected r d f Hr).
Qed.

(** X5.  A handler never holds more than one connection, and at the end
    of the request it still holds one exactly when the last thing that
    happened was a statement that failed or a closing that failed. *)
Theorem connection_is_held_exactly_after_a_late_failure (r : request) (d : database)
    (f : faults) :
  (open_connections (after r d f) <= 1)%nat
  /\ (open_connections (after r d f) = 1%nat
      <-> last (trace (after r d f)) = Some (QueryFailed (route_sql r) (route_params r))
          \/ last (trace (after r d f)) = Some EndFailed).
Proof.
  unfold after. destruct (reaches_store r) eqn:Hr.
  - rewrite (serve_reached r d f Hr).
    by_faults f; simpl; (split; [lia|]); split; try done; try tauto;
      intros [?|?]; done.
  - rewrite (serve_rejected r d f Hr). simpl. split; [lia|].
    split; [done | intros [?|?]; done].
Qed.

(** X6.  The error of the store goes to the server's log and nowhere
    else: a request during which the store fails logs one line, made of
    the label of its route and the error as the store raised it (the
    first error, after which the handler stops), and a request during
    which the store does not fail logs nothing. *)
Theorem store_error_is_logged_once (r : request) (d : database) (f : faults) :
  console (after r d f)
  = match (if reaches_store r then first_fault f else None) with
    | Some e => [(route_label r, e)]
    | None => []
    end
  /\ (console (after r d f) = [] <-> store_failed (trace (after r d f)) = false).
Proof.
  unfold after, first_fault. destruct (reaches_store r) eqn:Hr.
  - rewrite (serve_reached r d f Hr). by_faults f; done.
  - by rewrite (serve_rejected r d f Hr).
Qed.

End Dealings.

Section Effects.

Context {P : Platform}.

(** X7.  The table changes only by a write whose statement ran.  The
    list, get-by-id and export routes leave it as it was whatever
    happens; no route changes it when its statement was not run (body
    rejected, connection refused, statement failed); and once the
    statement of a route has run the table is what that statement made
    of it, whether or not the closing of the connection then fails. *)
Theorem table_changes_only_by_a_write_that_ran (r : request) (d : database) (f : faults) :
  (is_read r = true -> store (after r d f) = d)
  /\ (~ In (Queried (route_sql r) (route_params r)) (trace (after r d f)) ->
      store (after r d f) = d)
  /\ (In (Queried (route_sql r) (route_params r)) (trace (after r d f)) ->
      store (after r d f) = snd (route_effect r d)).
Proof.
  unfold after. destruct (reaches_store r) eqn:Hr.
  - rewrite (serve_reached r d f Hr).
    split; [|split].
    + intros Hread. by_faults f; simpl; try done; by destruct r.
    + intros Hnot. by_faults f; simpl; try done; exfalso; apply Hnot; simpl; tauto.
    + intros Hran. by_faults f; simpl in *; try done; intuition discriminate.
  - rewrite (serve_rejected r d f Hr). simpl. split; [done|]. split; [done|]. by intros [].
Qed.

(** X8.  A 500 does not mean that nothing was written.  When the
    statement of a request runs and the closing of the connection then
    fails, the handler answers with the failure of its route, as for any
    error of the store, and the table is nevertheless what the statement
    made of it: after such a create the new row is there. *)
Theorem write_stands_when_closing_fails (r : request) (d : database) (e : string) :
  reaches_store r = true ->
  reply r d (Faults None None (Some e)) = Returned (failure_response r)
  /\ store (after r d (Faults None None (Some e))) = snd (route_effect r d)
  /\ forall b, r = POST_inventory b ->
       table (store (after r d (Faults None None (Some e))))
       = table d ++ [written b (Item (next_id d) CNull CNull CNull CNull CNull)].
Proof.
  intros Hr. unfold reply, after. rewrite (serve_reached r _ _ Hr). simpl.
  split; [done|]. split; [done|]. by intros b ->.
Qed.

Lemma pdf_rows_app l1 : forall l2 y,
  pdf_rows (l1 ++ l2) y = pdf_rows l1 y ++ pdf_rows l2 (y + 20 * Z.of_nat (length l1)).
Proof.
  induction l1 as [|it l1 IH]; intros l2 y.
  - simpl. by rewrite Z.add_0_r.
  - change ((it :: l1) ++ l2) with (it :: (l1 ++ l2)). cbn [pdf_rows length].
    rewrite IH, <- app_assoc. do 3 f_equal. lia.
Qed.

Lemma pdf_rows_length l : forall y, length (pdf_rows l y) = (5 * length l)%nat.
Proof.
  induction l as [|it l IH]; intros y; [reflexivity|].
  cbn [pdf_rows]. rewrite List.length_app, IH. simpl. lia.
Qed.

Lemma pdf_report_length l : length (pdf_report l) = (11 + 5 * length l)%nat.
Proof.
  unfold pdf_report. rewrite !List.length_app, pdf_rows_length. simpl length. lia.
Qed.

(** X9.  The table of the PDF is laid out by position in the list and by
    nothing else: the row at index [i] is drawn at the height
    [120 + 20 * i], its five cells at the fixed columns, and after
    the eleven operations of the title and the header come five per row.
    The report of a list continued by another is the report of the first
    with the rows of the second drawn below: the handler moves no row
    and drops none. *)
Theorem pdf_rows_are_placed_by_index (l : list item) :
  pdf_rows l (tableTop + 20)
  = concat (imap (fun i it => pdf_row it (120 + 20 * Z.of_nat i)) l)
  /\ length (pdf_report l) = (11 + 5 * length l)%nat
  /\ forall l',
       pdf_rows (l ++ l') (tableTop + 20)
       = pdf_rows l (tableTop + 20) ++ pdf_rows l' (120 + 20 * Z.of_nat (length l)).
Proof.
  assert (forall l y, pdf_rows l y
                      = concat (imap (fun i it => pdf_row it (y + 20 * Z.of_nat i)) l)) as Hrows.
  { clear l. induction l as [|it l IH]; intros y; [reflexivity|].
    cbn [pdf_rows]. rewrite imap_cons. cbn [concat].
    rewrite Z.add_0_r, IH. do 2 f_equal. apply imap_ext. intros i x _. simpl.
    f_equal. lia. }
  split; [apply Hrows|]. split; [apply pdf_report_length|].
  intros l'. apply pdf_rows_app.
Qed.

End Effects.

Section Sequences.

Context {P : Platform}.

Lemma filter_filter_same {A} (p : A -> bool) l :
  List.filter p (List.filter p l) = List.filter p l.
Proof.
  induction l as [|x l IH]; simpl; [done|].
  destruct (p x) eqn:Hx; simpl; [rewrite Hx; by f_equal | done].
Qed.

Lemma existsb_filter_negb {A} (p : A -> bool) l :
  existsb p (List.filter (fun x => negb (p x)) l) = false.
Proof.
  induction l as [|x l IH]; simpl; [done|].
  destruct (p x) eqn:Hx; simpl; [done | by rewrite Hx].
Qed.

Lemma matching_written p b it : matching p (written b it) = matching p it.
Proof. reflexivity. Qed.

(** X10.  What was created is read back.  After a create that passed
    validation and that the store ran, the get-by-id route, asked for an
    id that matches the id the store gave to the new row and no row that
    was there before, answers 200 with that row: the id of the store, the
    [name] and the [quantity] of the body, and the [price], [category]
    and [supplier] of the body or their defaults, each as the column
    keeps it. *)
Theorem created_item_is_read_back (b : gmap string jsval) (id : string) (d : database) :
  rejected b = false ->
  has_match id d = false ->
  id_matches (JStr id) (next_id d) = true ->
  reply (GET_inventory_id id) (store (after (POST_inventory b) d no_faults)) no_faults
  = Returned
      (res_json 200
         (JObj [("id", JNum (Finite (inject_Z (next_id d))));
                ("name", cell_json (column_value (field_of b "name")));
                ("quantity", cell_json (column_value (field_of b "quantity")));
                ("price",
                 cell_json (column_value (js_or (field_of b "price") (JNum (Finite 0)))));
                ("category",
                 cell_json (column_value (js_or (field_of b "category") (JStr EmptyString))));
                ("supplier",
                 cell_json (column_value (js_or (field_of b "supplier") (JStr EmptyString))))])).
Proof.
  intros Hb Hm Hid. unfold reply, after.
  rewrite (serve_reached (POST_inventory b)) by (simpl; by rewrite Hb).
  rewrite (serve_reached (GET_inventory_id id)) by done. simpl.
  rewrite List.filter_app, (filter_nil_existsb _ _ Hm). simpl.
  unfold matching at 1. simpl. by rewrite Hid.
Qed.

(** X11.  What was deleted is gone, and only that.  After a delete that
    the store ran, the table holds the rows that do not have the id, in
    the order they had, and the next id is what it was; no row has the
    id; the get-by-id route answers 404 for it; and a second delete of
    the same id answers 404 and leaves the table as the first left it. *)
Theorem deleted_id_is_gone (id : string) (d : database) :
  let d' := store (after (DELETE_inventory_id id) d no_faults) in
  table d' = List.filter (fun it => negb (matching (JStr id) it)) (table d)
  /\ next_id d' = next_id d
  /\ has_match id d' = false
  /\ reply (GET_inventory_id id) d' no_faults = Returned not_found
  /\ reply (DELETE_inventory_id id) d' no_faults = Returned not_found
  /\ store (after (DELETE_inventory_id id) d' no_faults) = d'.
Proof.
  intros d'. assert (d' = Database
                            (List.filter (fun it => negb (matching (JStr id) it)) (table d))
                            (next_id d)) as Hd'.
  { unfold d', after. by rewrite (serve_reached (DELETE_inventory_id id)) by done. }
  assert (has_match id d' = false) as Hm.
  { rewrite Hd'. unfold has_match. simpl. apply existsb_filter_negb. }
  split; [by rewrite Hd'|]. split; [by rewrite Hd'|]. split; [exact Hm|].
  unfold reply, after.
  rewrite (serve_reached (GET_inventory_id id)), (serve_reached (DELETE_inventory_id id))
    by done.
  simpl. rewrite (filter_nil_existsb _ _ Hm). simpl.
  split; [done|]. split; [done|].
  rewrite Hd'. simpl. f_equal. apply filter_filter_same.
Qed.


(** X13.  When a row has the id: get-by-id answers 200 with the first
    row of the table that has it, update (of a body that passed
    validation) answers 200 with [{message: "Item updated"}] and delete
    200 with [{message: "Item deleted"}], in every run in which the store
    does not fail. *)
Theorem found_id_is_served (id : string) (d : database) (it : item) (others : list item) :
  List.filter (matching (JStr id)) (table d) = it :: others ->
  reply (GET_inventory_id id) d no_faults = Returned (res_json 200 (item_json it))
  /\ (forall b, rejected b = false ->
        reply (PUT_inventory_id id b) d no_faults
        = Returned (res_json 200 (message_body "Item updated")))
  /\ reply (DELETE_inventory_id id) d no_faults
     = Returned (res_json 200 (message_body "Item deleted")).
Proof.
  intros Hm. unfold reply. split; [|split].
  - rewrite (serve_reached (GET_inventory_id id)) by done. simpl. by rewrite Hm.
  - intros b Hb. rewrite (serve_reached (PUT_inventory_id id b)) by (simpl; by rewrite Hb).
    simpl. by rewrite Hm.
  - rewrite (serve_reached (DELETE_inventory_id id)) by done. simpl. by rewrite Hm.
Qed.

(** X14.  An item created without price, category and supplier comes out
    of the exports as an item without them.  Where a column keeps a bound
    [0] as [0] and a bound empty string as the empty string, the row that
    such a create adds is drawn in the PDF with the price "0.00" after
    the glyph and with "-" for category and for supplier, and its
    category and supplier are empty fields of the CSV. *)
Theorem defaults_of_create_reach_the_exports (b : gmap string jsval) (d : database) :
  column_value (JNum (Finite 0)) = CNum (Finite 0) ->
  column_value (JStr EmptyString) = CStr EmptyString ->
  rejected b = false ->
  truthy (field_of b "price") = false ->
  truthy (field_of b "category") = false ->
  truthy (field_of b "supplier") = false ->
  exists new,
    table (store (after (POST_inventory b) d no_faults)) = table d ++ [new]
    /\ price_text new = currency_glyph +:+ "0.00"
    /\ cell_or (item_category new) (CStr "-") = CStr "-"
    /\ cell_or (item_supplier new) (CStr "-") = CStr "-"
    /\ cell_text (item_category new) = EmptyString
    /\ cell_text (item_supplier new) = EmptyString.
Proof.
  intros Hzero Hempty Hb Hp Hc Hs.
  exists (written b (Item (next_id d) CNull CNull CNull CNull CNull)).
  split.
  { unfold after. by rewrite (serve_reached (POST_inventory b)) by (simpl; by rewrite Hb). }
  unfold price_text, price_amount.
  rewrite (written_price b _ Hp), (written_category b _ Hc), (written_supplier b _ Hs).
  rewrite Hzero, Hempty. done.
Qed.

(** X15.  The answer to a write says what happened and nothing about the
    item: whatever the body and whatever the table, a create, an update
    or a delete answers with one of six fixed bodies.  In particular the
    answer to a create does not carry the id that the store gave to the
    new row. *)
Theorem writes_answer_with_fixed_messages (r : request) (d : database) (f : faults)
    (res : response) :
  is_read r = false ->
  reply r d f = Returned res ->
  In res [bad_request; not_found; database_error;
          res_json 200 (message_body "Item added");
          res_json 200 (message_body "Item updated");
          res_json 200 (message_body "Item deleted")].
Proof.
  intros Hw. unfold reply. destruct (reaches_store r) eqn:Hr.
  - rewrite (serve_reached r d f Hr).
    destruct r as [|id|b|id b|id| |]; try discriminate;
      by_faults f; simpl; intros [= <-]; try tauto;
      destruct (Nat.eqb _ _); tauto.
  - rewrite (serve_rejected r d f Hr). simpl. intros [= <-]. tauto.
Qed.

End Sequences.

(** ** The amount of the PDF *)

Lemma digits_value_point k : forall m acc,
  digits_value acc (take_chars k m +:+ String "." (drop_chars k m)) = digits_value acc m.
Proof.
  induction k as [|k IH]; intros m acc.
  - destruct m; reflexivity.
  - destruct m as [|c m]; [reflexivity|].
    cbn [take_chars drop_chars String.append digits_value].
    destruct (is_digit c); [apply IH|]. destruct (Ascii.eqb c "."); [apply IH | reflexivity].
Qed.

Lemma digits_value_zeros j r : digits_value 0 (zeros j +:+ r) = digits_value 0 r.
Proof. induction j as [|j IH]; [reflexivity | exact IH]. Qed.

Lemma digits_value_digit c acc r :
  is_digit c = true ->
  digits_value acc (String c r) = digits_value (10 * acc + (Z.of_N (N_of_ascii c) - 48)) r.
Proof. intros Hc. cbn [digits_value]. by rewrite Hc. Qed.

Lemma digits_value_uint_acc u : forall acc : positive,
  digits_value (Z.pos acc) (NilEmpty.string_of_uint u) = Some (Z.pos (Pos.of_uint_acc u acc)).
Proof.
  induction u as [|u IH|u IH|u IH|u IH|u IH|u IH|u IH|u IH|u IH|u IH]; intros acc;
    [reflexivity | ..];
    cbn [NilEmpty.string_of_uint Pos.of_uint_acc];
    rewrite digits_value_digit by reflexivity; rewrite <- IH; f_equal;
    match goal with
    | |- context [N_of_ascii ?c] =>
        let v := eval vm_compute in (Z.of_N (N_of_ascii c)) in
        change (Z.of_N (N_of_ascii c)) with v
    end; lia.
Qed.

Lemma digits_value_uint u :
  digits_value 0 (NilEmpty.string_of_uint u) = Some (Z.of_N (Pos.of_uint u)).
Proof.
  induction u as [|u IH|u IH|u IH|u IH|u IH|u IH|u IH|u IH|u IH|u IH];
    [reflexivity | exact IH | ..];
    cbn [NilEmpty.string_of_uint Pos.of_uint]; apply (digits_value_uint_acc u).
Qed.

Lemma digits_value_decimal n : 0 <= n -> digits_value 0 (decimal n) = Some n.
Proof.
  intros Hn. unfold decimal.
  assert (forall u, digits_value 0 (NilZero.string_of_uint u) = Some (Z.of_N (N.of_uint u)))
    as Hu.
  { intros u. destruct u; try apply digits_value_uint. reflexivity. }
  rewrite Hu, DecimalN.Unsigned.of_to. f_equal. lia.
Qed.

Lemma hundredths_of_digits c r :
  is_digit c = true -> hundredths (String c r) = digits_value 0 (String c r).
Proof. destruct c as [[] [] [] [] [] [] [] []]; (reflexivity || discriminate). Qed.

(** X16.  The amount drawn in the PDF is the price to the nearest
    hundredth.  For a finite amount [q] below 10^21 in magnitude the text
    of [toFixed(2)] reads as a whole number [c] of hundredths with
    [|q - c / 100| <= 1 / 200], that is
    [|200 * q - 2 * c| <= 1] with [q] as a fraction; [c] has the sign
    of [q]; and an amount that is a whole number of hundredths is drawn
    as it is. *)
Theorem amount_is_drawn_to_the_nearest_hundredth {P : Platform} (q : Q) :
  Z.abs (Qnum q) < 10 ^ 21 * Z.pos (Qden q) ->
  exists c,
    hundredths (toFixed2 (Finite q)) = Some c
    /\ Z.abs (200 * Qnum q - 2 * c * Z.pos (Qden q)) <= Z.pos (Qden q)
    /\ (0 <= Qnum q -> 0 <= c)
    /\ (Qnum q <= 0 -> c <= 0)
    /\ (forall h, 100 * Qnum q = h * Z.pos (Qden q) -> c = h).
Proof.
  intros Hq. unfold toFixed2.
  destruct (Z.leb_spec (10 ^ 21 * Z.pos (Qden q)) (Z.abs (Qnum q))) as [?|_]; [lia|].
  set (den := Z.pos (Qden q)) in *.
  set (n := (200 * Z.abs (Qnum q) + den) / (2 * den)).
  assert (0 < den) as Hden by (unfold den; lia).
  assert (2 * den * n <= 200 * Z.abs (Qnum q) + den < 2 * den * n + 2 * den) as Hn.
  { unfold n. pose proof (Z.div_mod (200 * Z.abs (Qnum q) + den) (2 * den) ltac:(lia)) as Hd.
    pose proof (Z.mod_pos_bound (200 * Z.abs (Qnum q) + den) (2 * den) ltac:(lia)). lia. }
  assert (0 <= n) as Hn0 by (apply Z.div_pos; lia).
  set (m0 := if Z.eqb n 0 then "0" else decimal n).
  assert (digits_value 0 m0 = Some n /\ all_digits m0 = true /\ (1 <= String.length m0)%nat)
    as (Hv0 & Hd0 & Hl0).
  { unfold m0. destruct (Z.eqb_spec n 0) as [-> | ?].
    - split; [reflexivity|]. split; [reflexivity | simpl; lia].
    - split; [by apply digits_value_decimal|].
      split; [apply all_digits_decimal | apply decimal_length]. }
  set (m := if string_length m0 <=? 2
            then zeros (Z.to_nat (3 - string_length m0)) +:+ m0 else m0).
  assert (digits_value 0 m = Some n /\ all_digits m = true /\ (3 <= String.length m)%nat)
    as (Hv & Hd & Hl).
  { unfold m, string_length. destruct (Z.leb_spec (Z.of_nat (String.length m0)) 2).
    - rewrite digits_value_zeros, all_digits_app, all_digits_zeros, length_app, length_zeros.
      split; [done|]. split; [done | lia].
    - split; [done|]. split; [done | lia]. }
  set (k := Z.to_nat (string_length m - 2)).
  assert (hundredths
            ((if Qnum q <? 0 then String "-" EmptyString else EmptyString)
             +:+ take_chars k m +:+ String "." (drop_chars k m))
          = Some (if Qnum q <? 0 then - n else n)) as Hh.
  { destruct (Qnum q <? 0).
    - cbn [String.append hundredths]. by rewrite digits_value_point, Hv.
    - cbn [String.append].
      destruct (take_nonempty k m) as (c & r & Ht);
        [unfold k, string_length; lia | lia |].
      pose proof (all_digits_take k m Hd) as Hc. rewrite Ht in Hc. simpl in Hc.
      apply andb_true_iff in Hc as [Hc _].
      rewrite Ht. cbn [String.append]. rewrite (hundredths_of_digits c _ Hc).
      change (String c (r +:+ String "." (drop_chars k m)))
        with (String c r +:+ String "." (drop_chars k m)).
      by rewrite <- Ht, digits_value_point. }
  exists (if Qnum q <? 0 then - n else n). split; [exact Hh|].
  destruct (Z.ltb_spec (Qnum q) 0); (split; [|split; [|split]]); try nia.
Qed.

(** ** The three renderings of the list *)

(** X17.  The list route and the two exports render every row of the
    table once and none twice, whatever the collation: the array of the
    list route is a rearrangement of the rows of the table, the CSV reads
    back as the header and a rearrangement of their records, and the PDF
    has five cells for each of them after its eleven operations of title
    and header. *)
Theorem every_row_is_rendered_once {P : Platform} (d : database) :
  exists l,
    l ≡ₚ table d
    /\ reply GET_inventory d no_faults = Returned (res_json 200 (JArr (map item_json l)))
    /\ (exists csv hs,
          reply GET_export_csv d no_faults = Returned (Response 200 hs (TextBody csv))
          /\ Csv.parse csv = Some (csv_fields :: map (csv_record csv_fields) l))
    /\ (exists ops hs,
          reply GET_export_pdf d no_faults = Returned (Response 200 hs (PdfBody ops))
          /\ length ops = (11 + 5 * length (table d))%nat).
Proof.
  exists (merge_sort by_name (table d)).
  split; [apply merge_sort_Permutation|].
  unfold reply. rewrite serve_get_inventory, serve_get_export_csv, serve_get_export_pdf.
  unfold store_access. rewrite execute_list. simpl.
  split; [reflexivity|]. split.
  - do 2 eexists. split; [reflexivity|].
    unfold json2csv_parse. apply CsvFacts.parse_document; [done|].
    apply Forall_forall. intros r Hr. apply list_elem_of_fmap in Hr as (it & -> & _). done.
  - do 2 eexists. split; [reflexivity|].
    by rewrite pdf_report_length, (Permutation_length (merge_sort_Permutation by_name (table d))).
Qed.

(** * The further properties on the reference platform *)

Section FurtherReference.

#[local] Existing Instance reference_platform.

Lemma status_tells_what_happened_witness :
  reply (DELETE_inventory_id "7") sample_store no_faults = Returned not_found
  /\ status not_found = 404
  /\ route_id (DELETE_inventory_id "7") = Some "7"
  /\ has_match "7" sample_store = false
  /\ reply GET_inventory sample_store statement_failure = Returned database_error
  /\ store_failed (trace (after GET_inventory sample_store statement_failure)) = true.
Proof.
  destruct (status_tells_what_happened (P := reference_platform) (DELETE_inventory_id "7") sample_store no_faults
              not_found ltac:(reflexivity)) as (_ & _ & _ & Hmissing & _).
  destruct (status_tells_what_happened (P := reference_platform) GET_inventory sample_store statement_failure
              database_error ltac:(reflexivity)) as (_ & _ & Hfailed & _).
  split; [reflexivity|]. split; [reflexivity|].
  destruct (Hmissing ltac:(reflexivity)) as (id & Hid & Hm).
  split; [reflexivity|]. split; [reflexivity|]. split; [reflexivity|].
  exact (proj1 Hfailed ltac:(reflexivity)).
Defined.

Lemma rejected_update_touches_nothing_witness :
  truthy (field_of zero_name_body "name") = false
  /\ serve (PUT_inventory_id "1" zero_name_body) sample_store no_faults
     = (Returned bad_request, World sample_store no_faults 0 [] []).
Proof.
  split; [reflexivity|].
  apply (rejected_update_touches_nothing (P := reference_platform)).
  left. reflexivity.
Defined.

Lemma store_dealings_follow_one_of_five_courses_witness :
  reaches_store (POST_inventory nameless_body) = false
  /\ trace (after (POST_inventory nameless_body) sample_store no_faults) = []
  /\ In (trace (after (PUT_inventory_id "1" sample_body) sample_store closing_failure))
       [[]; [ConnectFailed];
        [Connected; QueryFailed sql_update (bound_values sample_body ++ [JStr "1"])];
        [Connected; Queried sql_update (bound_values sample_body ++ [JStr "1"]); Ended];
        [Connected; Queried sql_update (bound_values sample_body ++ [JStr "1"]); EndFailed]].
Proof.
  destruct (store_dealings_follow_one_of_five_courses (P := reference_platform) (POST_inventory nameless_body)
              sample_store no_faults) as (_ & _ & Hnone).
  destruct (store_dealings_follow_one_of_five_courses (P := reference_platform) (PUT_inventory_id "1" sample_body)
              sample_store closing_failure) as (Hcourse & _).
  split; [reflexivity|]. split; [exact (proj2 Hnone ltac:(reflexivity)) | exact Hcourse].
Defined.

Lemma connection_is_held_exactly_after_a_late_failure_witness :
  last (trace (after GET_inventory sample_store closing_failure)) = Some EndFailed
  /\ open_connections (after GET_inventory sample_store closing_failure) = 1%nat
  /\ (open_connections (after GET_inventory sample_store connection_failure) <= 1)%nat.
Proof.
  destruct (connection_is_held_exactly_after_a_late_failure (P := reference_platform) GET_inventory sample_store
              closing_failure) as (_ & Hheld).
  destruct (connection_is_held_exactly_after_a_late_failure (P := reference_platform) GET_inventory sample_store
              connection_failure) as (Hmost & _).
  split; [reflexivity|]. split; [|exact Hmost].
  apply (proj2 Hheld). right. reflexivity.
Defined.

Lemma store_error_is_logged_once_witness :
  store_failed (trace (after GET_export_csv sample_store no_faults)) = false
  /\ console (after GET_export_csv sample_store no_faults) = []
  /\ console (after GET_export_csv sample_store statement_failure)
     = [("GET /export/csv error:", "ER_NO_SUCH_TABLE")].
Proof.
  destruct (store_error_is_logged_once (P := reference_platform) GET_export_csv sample_store no_faults) as (_ & Hquiet).
  destruct (store_error_is_logged_once (P := reference_platform) GET_export_csv sample_store statement_failure)
    as (Hlogged & _).
  split; [reflexivity|]. split; [exact (proj2 Hquiet ltac:(reflexivity)) | exact Hlogged].
Defined.

Lemma table_changes_only_by_a_write_that_ran_witness :
  (is_read GET_export_pdf = true
   /\ store (after GET_export_pdf sample_store no_faults) = sample_store)
  /\ (~ In (Queried sql_delete [JStr "1"])
           (trace (after (DELETE_inventory_id "1") sample_store statement_failure))
      /\ store (after (DELETE_inventory_id "1") sample_store statement_failure) = sample_store)
  /\ (In (Queried sql_delete [JStr "1"])
         (trace (after (DELETE_inventory_id "1") sample_store closing_failure))
      /\ table (store (after (DELETE_inventory_id "1") sample_store closing_failure))
         = [Item 2 (CStr "Anvil") CNull CNull CNull (CStr "acme")]).
Proof.
  destruct (table_changes_only_by_a_write_that_ran (P := reference_platform) GET_export_pdf sample_store no_faults)
    as (Hread & _).
  destruct (table_changes_only_by_a_write_that_ran (P := reference_platform) (DELETE_inventory_id "1") sample_store
              statement_failure) as (_ & Hnot & _).
  destruct (table_changes_only_by_a_write_that_ran (P := reference_platform) (DELETE_inventory_id "1") sample_store
              closing_failure) as (_ & _ & Hran).
  assert (~ In (Queried sql_delete [JStr "1"])
              (trace (after (DELETE_inventory_id "1") sample_store statement_failure)))
    as Hno.
  { intros [Hin | [Hin | []]]; discriminate Hin. }
  assert (In (Queried sql_delete [JStr "1"])
             (trace (after (DELETE_inventory_id "1") sample_store closing_failure)))
    as Hyes.
  { right. left. reflexivity. }
  split; [split; [reflexivity | exact (Hread ltac:(reflexivity))]|].
  split; [split; [exact Hno | exact (Hnot Hno)]|].
  split; [exact Hyes|]. by rewrite (Hran Hyes).
Defined.

Lemma write_stands_when_closing_fails_witness :
  reaches_store (POST_inventory sample_body) = true
  /\ reply (POST_inventory sample_body) sample_store closing_failure
     = Returned database_error
  /\ length (table (store (after (POST_inventory sample_body) sample_store closing_failure)))
     = 3%nat.
Proof.
  destruct (write_stands_when_closing_fails (P := reference_platform) (POST_inventory sample_body) sample_store
              "ECONNRESET" ltac:(reflexivity)) as (Hreply & _ & Hrow).
  split; [reflexivity|]. split; [exact Hreply|].
  change closing_failure with (Faults None None (Some "ECONNRESET")).
  by rewrite (Hrow sample_body ltac:(reflexivity)).
Defined.

Lemma created_item_is_read_back_witness :
  rejected sample_body = false
  /\ has_match "3" sample_store = false
  /\ decimal_id (JStr "3") (next_id sample_store) = true
  /\ reply (GET_inventory_id "3")
       (store (after (POST_inventory sample_body) sample_store no_faults)) no_faults
     = Returned
         (res_json 200
            (JObj [("id", JNum (Finite 3)); ("name", JStr "Nut"); ("quantity", JNum (Finite 0));
                   ("price", JNum (Finite 0)); ("category", JStr EmptyString);
                   ("supplier", JStr EmptyString)])).
Proof.
  split; [reflexivity|]. split; [reflexivity|]. split; [reflexivity|].
  exact (created_item_is_read_back (P := reference_platform) sample_body "3" sample_store ltac:(reflexivity) ltac:(reflexivity) ltac:(reflexivity)).
Defined.

Lemma found_id_is_served_witness :
  List.filter (matching (JStr "2")) (table sample_store)
  = [Item 2 (CStr "Anvil") CNull CNull CNull (CStr "acme")]
  /\ reply (DELETE_inventory_id "2") sample_store no_faults
     = Returned (res_json 200 (message_body "Item deleted"))
  /\ reply (PUT_inventory_id "2" sample_body) sample_store no_faults
     = Returned (res_json 200 (message_body "Item updated")).
Proof.
  destruct (found_id_is_served (P := reference_platform) "2" sample_store
              (Item 2 (CStr "Anvil") CNull CNull CNull (CStr "acme")) [] ltac:(reflexivity))
    as (_ & Hput & Hdel).
  split; [reflexivity|]. split; [exact Hdel | exact (Hput sample_body ltac:(reflexivity))].
Defined.

Lemma defaults_of_create_reach_the_exports_witness :
  kept_value (JNum (Finite 0)) = CNum (Finite 0)
  /\ kept_value (JStr EmptyString) = CStr EmptyString
  /\ rejected sample_body = false
  /\ exists new,
       table (store (after (POST_inventory sample_body) sample_store no_faults))
       = table sample_store ++ [new]
       /\ price_text new = currency_glyph +:+ "0.00"
       /\ cell_or (item_category new) (CStr "-") = CStr "-".
Proof.
  split; [reflexivity|]. split; [reflexivity|]. split; [reflexivity|].
  destruct (defaults_of_create_reach_the_exports (P := reference_platform) sample_body sample_store
              ltac:(reflexivity) ltac:(reflexivity) ltac:(reflexivity) ltac:(reflexivity) ltac:(reflexivity) ltac:(reflexivity))
    as (new & Htable & Hprice & Hcategory & _).
  exists new. by split.
Defined.

Lemma writes_answer_with_fixed_messages_witness :
  is_read (POST_inventory sample_body) = false
  /\ reply (POST_inventory sample_body) sample_store no_faults
     = Returned (res_json 200 (message_body "Item added"))
  /\ In (res_json 200 (message_body "Item added"))
       [bad_request; not_found; database_error;
        res_json 200 (message_body "Item added");
        res_json 200 (message_body "Item updated");
        res_json 200 (message_body "Item deleted")].
Proof.
  split; [reflexivity|]. split; [reflexivity|].
  exact (writes_answer_with_fixed_messages (P := reference_platform) (POST_inventory sample_body) sample_store
           no_faults _ ltac:(reflexivity) ltac:(reflexivity)).
Defined.

Lemma amount_is_drawn_to_the_nearest_hundredth_witness :
  Z.abs (Qnum (1999999 # 1000000)) < 10 ^ 21 * Z.pos (Qden (1999999 # 1000000))
  /\ toFixed2 (Finite (1999999 # 1000000)) = "2.00"
  /\ exists c, hundredths (toFixed2 (Finite (1999999 # 1000000))) = Some c
               /\ Z.abs (200 * 1999999 - 2 * c * 1000000) <= 1000000.
Proof.
  split; [reflexivity|]. split; [reflexivity|].
  destruct (amount_is_drawn_to_the_nearest_hundredth (P := reference_platform) (1999999 # 1000000) ltac:(reflexivity))
    as (c & Hc & Hnear & _).
  exists c. split; [exact Hc | exact Hnear].
Defined.

End FurtherReference.
